(** * Milestara: milestone governance and fund accounting

    A shallow embedding of the governance core of the repository:

    - [services/milestoneContract.js]: the browser-local token ledger
      ([fundMilestoneContract], [castVote], [releaseMilestoneFunds] and the
      getters), persisted in [localStorage];
    - [lib/db/votes.js], [lib/db/milestones.js], [lib/db/transactions.js],
      [lib/db/projects.js]: the Supabase operations, run against the tables,
      constraints and the [increment_funded_amount] function of
      [lib/schema.sql];
    - [hooks/useSupabase.js]: the calls of [recordFunding];
    - [pages/ProjectsPage.jsx], [components/Dashboard.jsx] and
      [components/ProgressBar.jsx]: the state update of [handleVote] and
      the percentages of the vote bar and of the progress bar.

    Numbers.  JavaScript numbers are modelled exactly: token counts and
    vote weights are integers ([Z]), BCH amounts are rationals ([Q]), and a
    [NUMERIC(18,8)] column holds an integer count of 1e-8 units.  The
    rounding error of IEEE doubles is outside this model.

    Storage.  An entry of [localStorage] is missing, holds text that
    [JSON.parse] rejects, or holds a value of the kind the code writes
    under that key; the votes object is the finite map of its own
    properties.

    Effects.  Every function of the source that reads or writes
    [localStorage], talks to the store or to the wallet is a computation in
    the monad [js]: it takes the [World] and returns either the value it
    returns or the [Error] it throws, with the world as it left it. *)

From Stdlib Require Import ZArith QArith Qround Qfield Lqa Lia List Permutation.
From stdpp Require Import gmap strings list.

Local Open Scope Z_scope.

(** ** JavaScript numbers *)

(** [a > b] and [a < b] on fractional numbers. *)
Definition Qgtb (a b : Q) : bool := negb (Qle_bool a b).
Definition Qltb (a b : Q) : bool := Qgtb b a.

(** [Math.floor(x)]. *)
Definition Math_floor (x : Q) : Z := Qfloor x.

(** [Math.round(x)]: the nearest integer, a tie going up. *)
Definition Math_round (x : Q) : Z := Qfloor (x + (1 # 2))%Q.



(** [!x] on an identifier argument: [undefined], [null] and the empty
    string are falsy. *)
Definition falsy (x : option string) : bool :=
  match x with
  | None => true
  | Some s => bool_decide (s = "")
  end.

(** ** Errors *)

(** The reply of the store to a failed request: [{ code, message }]. *)
Record PgError := { code : string; message : string }.

(** What the functions throw.  The constructor names the message. *)
Inductive Error :=
| FundAtLeast
    (* 'Fund at least 0.001 BCH to receive governance tokens' *)
| NotEnoughTokens (currentBalance : Z)
    (* `Not enough tokens. You have ${currentBalance} GOV tokens.` *)
| CannotRelease (amountBch locked : Q)
    (* `Cannot release ${amountBch} BCH. Only ${locked.toFixed(6)} BCH is locked.` *)
| WalletError
    (* whatever a rejected wallet.send throws *)
| IsRequired (field : string)
    (* '<field> is required' *)
| VotingPowerBelowOne
    (* 'votingPower must be at least 1' *)
| AlreadyVoted
    (* 'You have already voted on this milestone.' *)
| AmountNotPositive (field : string)
    (* '<field> must be > 0' *)
| StoreError (msg : string)
    (* new Error(error.message) *)
| NullClient.
    (* TypeError: [supabase] is null and [.from] / [.rpc] is read from it *)

(** ** Browser storage *)

(** Vote direction, the keys ['yes'] and ['no']. *)
Inductive VoteType := yes | no.

(** The tally object [{ yes, no }] of a milestone. *)
Module Tally.
Record t := { yes : Z; no : Z }.
End Tally.

Definition tally_get (t : Tally.t) (k : VoteType) : Z :=
  match k with yes => Tally.yes t | no => Tally.no t end.

(** [{ ...t, [k]: v }]. *)
Definition tally_set (t : Tally.t) (k : VoteType) (v : Z) : Tally.t :=
  match k with
  | yes => {| Tally.yes := v; Tally.no := Tally.no t |}
  | no => {| Tally.yes := Tally.yes t; Tally.no := v |}
  end.

(** A transaction identifier: one returned by the wallet, or
    ['simulated_' + Date.now().toString(16)]. *)
Inductive TxId :=
| OnChain (txId : string)
| Simulated (now : N).

(** One [localStorage] entry, seen through [getItem] and [JSON.parse]:
    no entry, an entry whose text [JSON.parse] rejects, or an entry that
    parses to a value. *)
Inductive Cell (A : Type) :=
| Absent
| Unparsable
| Stored (a : A).
Arguments Absent {A}.
Arguments Unparsable {A}.
Arguments Stored {A} a.

(** The entries under [STORAGE_KEYS]. *)
Record Storage := {
  tokenCategory : Cell TxId;
  tokenBalance : Cell Z;
  votes : Cell (gmap string Tally.t);
  lockedAmount : Cell Q;
}.

(** [loadFromStorage(key, defaultValue)] on the entry of [key]. *)
Definition loadFromStorage {A} (item : Cell A) (defaultValue : A) : A :=
  match item with
  | Absent => defaultValue
  | Unparsable => defaultValue
  | Stored a => a
  end.

(** ** The store *)

Inductive MilestoneStatus := pending | voting | approved | released | rejected.
Inductive TxType := funding | release | refund.

#[global] Instance MilestoneStatus_eq_dec : EqDecision MilestoneStatus.
Proof. solve_decision. Defined.

#[global] Instance TxType_eq_dec : EqDecision TxType.
Proof. solve_decision. Defined.

(** A column of type [NUMERIC(18,8)]: a count of units of 1e-8. *)
Definition numeric := Z.

Module Project.
Record row := { funding_target : numeric; funded_amount : numeric }.
End Project.

Module Milestone.
Record row := {
  project_id : string;
  amount_allocated : numeric;
  status : MilestoneStatus;
}.
End Milestone.

Module Vote.
Record row := {
  milestone_id : string;
  voter_id : string;
  vote : bool;
  voting_power : Z;
}.
End Vote.

Module Transaction.
Record row := {
  project_id : string;
  tx_hash : string;
  amount : numeric;
  type : TxType;
}.
End Transaction.

(** The tables of [schema.sql].  [users], [projects] and [milestones] are
    keyed by their primary key [id]; [votes] and [transactions] are kept as
    the rows in insertion order, the uniqueness of (milestone_id, voter_id)
    being left to the insert below. *)
Record Database := {
  users : gset string;
  projects : gmap string Project.row;
  milestones : gmap string Milestone.row;
  db_votes : list Vote.row;
  transactions : list Transaction.row;
}.

(** ** The wallet *)

(** What [wallet.send] is asked to send: an amount of BCH, or a genesis
    output of fungible tokens. *)
Inductive Transfer :=
| SendBch (cashaddr : string) (value : Q)
| SendToken (cashaddr : string) (amount : Z).

(** The wallet of the user: its address, what it has sent so far, and the
    outcome of the sends to come, in order: the [txId], or [None] for a
    send that is rejected (as is any send once the list is used up). *)
Record Wallet := {
  cashaddr : string;
  ledger : list Transfer;
  replies : list (option string);
}.

(** ** The world and the monad *)

(** [supabase] is [None] when the environment does not configure the
    client (the module then exports [null]).  [faults] schedules the
    outcome of the store requests to come: [Some e] makes the request fail
    with [e] without reaching the tables, [None] lets it through (as does
    the empty list). *)
Record World := {
  localStorage : Storage;
  wallet : Wallet;
  now : N;
  supabase : option Database;
  faults : list (option PgError);
}.

Definition js (A : Type) : Type := World -> (Error + A) * World.

Definition ret {A} (a : A) : js A := fun w => (inr a, w).
Definition throw {A} (e : Error) : js A := fun w => (inl e, w).
Definition bind {A B} (m : js A) (k : A -> js B) : js B :=
  fun w =>
    match m w with
    | (inl e, w') => (inl e, w')
    | (inr a, w') => k a w'
    end.

(** [try { m } catch { handler }]. *)
Definition try_catch {A} (m : js A) (handler : Error -> js A) : js A :=
  fun w =>
    match m w with
    | (inl e, w') => handler e w'
    | (inr a, w') => (inr a, w')
    end.

Declare Scope js_scope.
Delimit Scope js_scope with js.
Notation "'let!' x ':=' m 'in' k" := (bind m (fun x => k))
  (at level 10, x pattern, m at level 99, k at level 200) : js_scope.
Notation "m ';;' k" := (bind m (fun _ => k))
  (at level 100, k at level 200, right associativity) : js_scope.
Notation "'when' b 'throws' e ';;' k" := (if (b : bool) then throw e else k)
  (at level 10, b at level 99, e at level 99, k at level 200) : js_scope.
Local Open Scope js_scope.

Definition get_storage : js Storage := fun w => (inr (localStorage w), w).

Definition set_storage (f : Storage -> Storage) : js unit :=
  fun w =>
    (inr tt,
     {| localStorage := f (localStorage w); wallet := wallet w; now := now w;
        supabase := supabase w; faults := faults w |}).


Definition save_tokenBalance (v : Z) : js unit :=
  set_storage (fun s =>
    {| tokenCategory := tokenCategory s; tokenBalance := Stored v;
       votes := votes s; lockedAmount := lockedAmount s |}).

Definition save_votes (v : gmap string Tally.t) : js unit :=
  set_storage (fun s =>
    {| tokenCategory := tokenCategory s; tokenBalance := tokenBalance s;
       votes := Stored v; lockedAmount := lockedAmount s |}).


(** [loadFromStorage(STORAGE_KEYS.key, defaultValue)] as a computation. *)
Definition load {A} (key : Storage -> Cell A) (defaultValue : A) : js A :=
  let! s := get_storage in ret (loadFromStorage (key s) defaultValue).




(** ** services/milestoneContract.js *)

Definition TOKENS_PER_UNIT : Z := 100.

(** The approval expression [total > 0 && (yes / total) > 0.5], which
    [castVote], [isMilestoneApproved], [voteOnMilestone] and
    [fetchMilestonesByProject] all spell out. *)
Definition isApproved (yesWeight noWeight : Z) : bool :=
  let total := yesWeight + noWeight in
  (0 <? total) && Qgtb (inject_Z yesWeight / inject_Z total) (1 # 2).

(** [total > 0 ? Math.round((yes / total) * 100) : 0]. *)
Definition yesPercent (yesWeight noWeight : Z) : Z :=
  let total := yesWeight + noWeight in
  if 0 <? total
  then Math_round ((inject_Z yesWeight / inject_Z total) * inject_Z 100)
  else 0.

(** The token amount of [fundMilestoneContract]:
    [Math.floor((amountBch / 0.001) * TOKENS_PER_UNIT)]. *)
Definition tokenAmount (amountBch : Q) : Z :=
  Math_floor ((amountBch / (1 # 1000)) * inject_Z TOKENS_PER_UNIT).

Module FundResult.
Record t := {
  tokenCategory : TxId;
  tokenAmount : Z;
  newTokenBalance : Z;
  simulatedTxId : TxId;
}.
End FundResult.


Module CastResult.
Record t := {
  votes : Tally.t;
  tokenBalance : Z;
  isApproved : bool;
  yesPercent : Z;
}.
End CastResult.

Definition zeroTally : Tally.t := {| Tally.yes := 0; Tally.no := 0 |}.

Definition castVote (milestoneId : string) (voteType : VoteType) (tokensToUse : Z)
  : js CastResult.t :=
  let! currentBalance := load tokenBalance 0 in
  when currentBalance <? tokensToUse throws NotEnoughTokens currentBalance ;;
  let newBalance := currentBalance - tokensToUse in
  save_tokenBalance newBalance ;;
  let! allVotes := load votes ∅ in
  let prevVotes := default zeroTally (allVotes !! milestoneId) in
  let updatedVotes :=
    tally_set prevVotes voteType (tally_get prevVotes voteType + tokensToUse) in
  let allVotes := <[milestoneId := updatedVotes]> allVotes in
  save_votes allVotes ;;
  ret {| CastResult.votes := updatedVotes; CastResult.tokenBalance := newBalance;
         CastResult.isApproved := isApproved (Tally.yes updatedVotes) (Tally.no updatedVotes);
         CastResult.yesPercent := yesPercent (Tally.yes updatedVotes) (Tally.no updatedVotes) |}.


Definition getTokenBalance : js Z := load tokenBalance 0.


Definition getMilestoneVotes (milestoneId : string) : js Tally.t :=
  let! allVotes := load votes ∅ in
  ret (default zeroTally (allVotes !! milestoneId)).




(** ** The store requests *)

Definition pg_error (c m : string) : PgError := {| code := c; message := m |}.

Definition set_supabase (db : Database) (rest : list (option PgError)) (w : World)
  : World :=
  {| localStorage := localStorage w; wallet := wallet w; now := now w;
     supabase := Some db; faults := rest |}.

(** One awaited request [supabase.from(..)...] or [supabase.rpc(..)]: it
    evaluates to the pair [{ data, error }], here [inr data] or
    [inl error].  Reading [.from] of a null client throws. *)
Definition request {A} (op : Database -> PgError + (A * Database))
  : js (PgError + A) :=
  fun w =>
    match supabase w with
    | None => (inl NullClient, w)
    | Some db =>
        match faults w with
        | Some e :: rest => (inr (inl e), set_supabase db rest w)
        | scheduled =>
            match op db with
            | inl e => (inr (inl e), set_supabase db (tail scheduled) w)
            | inr (a, db') => (inr (inr a), set_supabase db' (tail scheduled) w)
            end
        end
    end.

(** [NUMERIC(18,8)]: the value of a column, and the column value a number
    is stored as (rounded to 8 decimals, a tie going away from zero). *)
Definition numeric_value (n : numeric) : Q := inject_Z n / inject_Z (10 ^ 8).

Definition to_numeric (x : Q) : numeric :=
  let near (y : Q) : Z := Qfloor (y * inject_Z (10 ^ 8) + (1 # 2))%Q in
  if Qltb x 0 then - near (- x)%Q else near x.

Definition numeric_overflow (n : numeric) : bool := 10 ^ 18 <=? Z.abs n.

Definition same_voter (milestoneId voterId : string) (r : Vote.row) : bool :=
  bool_decide (Vote.milestone_id r = milestoneId)
  && bool_decide (Vote.voter_id r = voterId).

(** [insert into votes ... returning *]: the CHECK on [voting_power], the
    constraint [votes_unique_per_user_milestone], then the two foreign
    keys. *)
Definition insert_vote (r : Vote.row) (db : Database)
  : PgError + (Vote.row * Database) :=
  if Vote.voting_power r <? 1 then
    inl (pg_error "23514" "violates check constraint votes_voting_power_check")
  else if existsb (same_voter (Vote.milestone_id r) (Vote.voter_id r)) (db_votes db) then
    inl (pg_error "23505" "violates unique constraint votes_unique_per_user_milestone")
  else if negb (bool_decide (is_Some (milestones db !! Vote.milestone_id r))) then
    inl (pg_error "23503" "violates foreign key constraint votes_milestone_id_fkey")
  else if negb (bool_decide (Vote.voter_id r ∈ users db)) then
    inl (pg_error "23503" "violates foreign key constraint votes_voter_id_fkey")
  else
    inr (r, {| users := users db; projects := projects db;
               milestones := milestones db;
               db_votes := db_votes db ++ [r];
               transactions := transactions db |}).

(** The rows [where milestone_id = ..]. *)
Definition votes_for (milestoneId : string) (rows : list Vote.row) : list Vote.row :=
  List.filter (fun r => bool_decide (Vote.milestone_id r = milestoneId)) rows.

(** [select vote, voting_power from votes where milestone_id = ..]. *)
Definition select_votes (milestoneId : string) (db : Database)
  : PgError + (list Vote.row * Database) :=
  inr (votes_for milestoneId (db_votes db), db).

(** [select id ... { count: 'exact', head: true }] for one voter. *)
Definition count_votes (milestoneId voterId : string) (db : Database)
  : PgError + (Z * Database) :=
  inr (Z.of_nat (length (List.filter (same_voter milestoneId voterId) (db_votes db))),
       db).

(** [update milestones set status = .. where id = .. returning *], read
    with [.single()]. *)
Definition update_status (milestoneId : string) (s : MilestoneStatus) (db : Database)
  : PgError + (Milestone.row * Database) :=
  match milestones db !! milestoneId with
  | None => inl (pg_error "PGRST116" "JSON object requested, multiple (or no) rows returned")
  | Some r =>
      let r' := {| Milestone.project_id := Milestone.project_id r;
                   Milestone.amount_allocated := Milestone.amount_allocated r;
                   Milestone.status := s |} in
      inr (r', {| users := users db; projects := projects db;
                  milestones := <[milestoneId := r']> (milestones db);
                  db_votes := db_votes db;
                  transactions := transactions db |})
  end.

(** [insert into transactions ... returning *]. *)
Definition insert_transaction (r : Transaction.row) (db : Database)
  : PgError + (Transaction.row * Database) :=
  if numeric_overflow (Transaction.amount r) then
    inl (pg_error "22003" "numeric field overflow")
  else if Transaction.amount r <=? 0 then
    inl (pg_error "23514" "violates check constraint transactions_amount_check")
  else if negb (bool_decide (is_Some (projects db !! Transaction.project_id r))) then
    inl (pg_error "23503" "violates foreign key constraint transactions_project_id_fkey")
  else
    inr (r, {| users := users db; projects := projects db;
               milestones := milestones db;
               db_votes := db_votes db;
               transactions := transactions db ++ [r] |}).

(** The rows [where project_id = .. and type = 'funding']. *)
Definition is_funding_of (projectId : string) (r : Transaction.row) : bool :=
  bool_decide (Transaction.project_id r = projectId)
  && bool_decide (Transaction.type r = funding).


(** The function [increment_funded_amount(project_id, amount)] of the
    schema: one UPDATE, under the CHECK [funded_amount >= 0]. *)
Definition increment_funded_amount (projectId : string) (amount : Q) (db : Database)
  : PgError + (unit * Database) :=
  match projects db !! projectId with
  | None => inr (tt, db)
  | Some r =>
      let funded := to_numeric (numeric_value (Project.funded_amount r) + amount)%Q in
      if numeric_overflow funded then
        inl (pg_error "22003" "numeric field overflow")
      else if funded <? 0 then
        inl (pg_error "23514" "violates check constraint projects_funded_amount_check")
      else
        let r' := {| Project.funding_target := Project.funding_target r;
                     Project.funded_amount := funded |} in
        inr (tt, {| users := users db;
                    projects := <[projectId := r']> (projects db);
                    milestones := milestones db;
                    db_votes := db_votes db;
                    transactions := transactions db |})
  end.

(** ** lib/db/milestones.js *)

(** [updateMilestoneStatus(milestoneId, status)].  The test against
    [validStatuses] cannot fail on a [MilestoneStatus]. *)
Definition updateMilestoneStatus (milestoneId : option string) (s : MilestoneStatus)
  : js Milestone.row :=
  when falsy milestoneId throws IsRequired "milestoneId" ;;
  let! reply := request (update_status (default "" milestoneId) s) in
  match reply with
  | inl error => throw (StoreError (message error))
  | inr data => ret data
  end.

(** ** lib/db/votes.js *)

Definition APPROVAL_THRESHOLD : Q := 1 # 2.

(** [rows.filter(v => v.vote === b).reduce((s, v) => s + v.voting_power, 0)]. *)
Definition weight_of (b : bool) (rows : list Vote.row) : Z :=
  fold_left (fun s v => s + Vote.voting_power v)
    (List.filter (fun v => Bool.eqb (Vote.vote v) b) rows) 0.

Module VoteResult.
Record t := {
  voteRecord : Vote.row;
  milestoneApproved : bool;
  yesPercent : Z;
  yesWeight : Z;
  noWeight : Z;
  total : Z;
}.
End VoteResult.

(** [voteOnMilestone({ milestoneId, voterId, vote, votingPower })].  The
    test [typeof vote !== 'boolean'] cannot fail on a [bool]. *)
Definition voteOnMilestone
    (milestoneId voterId : option string) (vote : bool) (votingPower : Z)
  : js VoteResult.t :=
  when falsy milestoneId throws IsRequired "milestoneId" ;;
  when falsy voterId throws IsRequired "voterId" ;;
  when votingPower <? 1 throws VotingPowerBelowOne ;;
  (* 1. Insert the vote *)
  let! inserted :=
    request (insert_vote {| Vote.milestone_id := default "" milestoneId;
                            Vote.voter_id := default "" voterId;
                            Vote.vote := vote;
                            Vote.voting_power := votingPower |}) in
  match inserted with
  | inl insertError =>
      if bool_decide (code insertError = "23505")
      then throw AlreadyVoted
      else throw (StoreError (message insertError))
  | inr voteRecord =>
      (* 2. Recalculate vote tallies for this milestone *)
      let! fetched := request (select_votes (default "" milestoneId)) in
      match fetched with
      | inl fetchError => throw (StoreError (message fetchError))
      | inr allVotes =>
          let yesWeight := weight_of true allVotes in
          let noWeight := weight_of false allVotes in
          let total := yesWeight + noWeight in
          let yesPercent :=
            if 0 <? total
            then Math_round ((inject_Z yesWeight / inject_Z total) * inject_Z 100)
            else 0 in
          let milestoneApproved :=
            (0 <? total)
            && Qgtb (inject_Z yesWeight / inject_Z total) APPROVAL_THRESHOLD in
          (* 3. Auto-update milestone status if threshold reached *)
          (if milestoneApproved then
             updateMilestoneStatus milestoneId approved ;; ret tt
           else if 0 <? total then
             updateMilestoneStatus milestoneId voting ;; ret tt
           else ret tt) ;;
          ret {| VoteResult.voteRecord := voteRecord;
                 VoteResult.milestoneApproved := milestoneApproved;
                 VoteResult.yesPercent := yesPercent;
                 VoteResult.yesWeight := yesWeight;
                 VoteResult.noWeight := noWeight;
                 VoteResult.total := total |}
      end
  end.

(** [hasUserVoted(milestoneId, voterId)]. *)
Definition hasUserVoted (milestoneId voterId : option string) : js bool :=
  if falsy milestoneId || falsy voterId then ret false else
  let! reply := request (count_votes (default "" milestoneId) (default "" voterId)) in
  match reply with
  | inl error => ret false
  | inr count => ret (0 <? count)
  end.

(** ** lib/db/transactions.js and lib/db/projects.js *)

(** [insertTransaction({ projectId, txHash, amount, type })].  The test
    against [validTypes] cannot fail on a [TxType]. *)
Definition insertTransaction
    (projectId txHash : option string) (amount : Q) (type : TxType)
  : js Transaction.row :=
  when falsy projectId throws IsRequired "projectId" ;;
  when falsy txHash throws IsRequired "txHash" ;;
  when Qle_bool amount 0 throws AmountNotPositive "amount" ;;
  let! reply :=
    request (insert_transaction
               {| Transaction.project_id := default "" projectId;
                  Transaction.tx_hash := default "" txHash;
                  Transaction.amount := to_numeric amount;
                  Transaction.type := type |}) in
  match reply with
  | inl error => throw (StoreError (message error))
  | inr data => ret data
  end.


(** [updateFundedAmount(projectId, additionalAmount)]. *)
Definition updateFundedAmount (projectId : option string) (additionalAmount : Q)
  : js unit :=
  when falsy projectId throws IsRequired "projectId" ;;
  when Qle_bool additionalAmount 0 throws AmountNotPositive "additionalAmount" ;;
  let! reply :=
    request (increment_funded_amount (default "" projectId) additionalAmount) in
  match reply with
  | inl error => throw (StoreError (message error))
  | inr _ => ret tt
  end.

(** ** What the statements below observe *)

(** An entry that [loadFromStorage] cannot read: missing, or not JSON. *)
Definition unreadable {A} (item : Cell A) : Prop :=
  item = Absent \/ item = Unparsable.


(** The mint formula in the words of the specification:
    [floor(contributedAmount / unit) * ratio], unit 0.001 and ratio 100. *)
Definition mint_spec (contributedAmount : Q) : Z :=
  Qfloor (contributedAmount / (1 # 1000)) * 100.

(** The key of the constraint [votes_unique_per_user_milestone]. *)
Definition vote_key (r : Vote.row) : string * string :=
  (Vote.milestone_id r, Vote.voter_id r).


(** The voter has a vote on the milestone. *)
Definition has_voted (db : Database) (milestoneId voterId : string) : Prop :=
  exists r, r ∈ db_votes db /\ vote_key r = (milestoneId, voterId).

(** The row that [voteOnMilestone] inserts. *)
Definition new_vote (milestoneId voterId : string) (vote : bool) (votingPower : Z)
  : Vote.row :=
  {| Vote.milestone_id := milestoneId; Vote.voter_id := voterId;
     Vote.vote := vote; Vote.voting_power := votingPower |}.

(** The status of a milestone in the store. *)
Definition status_of (w : World) (milestoneId : string) : option MilestoneStatus :=
  match supabase w with
  | Some db => Milestone.status <$> milestones db !! milestoneId
  | None => None
  end.

(** The next request reaches the tables: no fault is scheduled for it. *)
Definition store_answers (w : World) : Prop :=
  forall e rest, faults w <> Some e :: rest.

(** ** Worlds used as concrete inputs *)

Definition demo_storage : Storage :=
  {| tokenCategory := Absent; tokenBalance := Stored 50;
     votes := Absent; lockedAmount := Stored (1 # 100)%Q |}.

Definition demo_db : Database :=
  {| users := {[ "alice"; "bob" ]};
     projects := {[ "p1" := {| Project.funding_target := 100000000;
                               Project.funded_amount := 0 |} ]};
     milestones := {[ "m1" := {| Milestone.project_id := "p1";
                                 Milestone.amount_allocated := 50000;
                                 Milestone.status := pending |} ]};
     db_votes := [];
     transactions := [] |}.

(** A browser holding 50 GOV tokens and 0.01 BCH locked, a wallet whose
    next send goes through, and a store with one project, one pending
    milestone allocated 0.0005 BCH and two users. *)
Definition demo_world : World :=
  {| localStorage := demo_storage;
     wallet := {| cashaddr := "bchtest:funder"; ledger := [];
                  replies := [Some "tx1"] |};
     now := 1700000000000%N;
     supabase := Some demo_db;
     faults := [] |}.

(** [demo_world] after alice has voted YES with weight 1 on m1. *)
Definition after_alice : World :=
  snd (voteOnMilestone (Some "m1") (Some "alice") true 1 demo_world).

(** The store of [after_alice]: the vote is recorded and m1 is approved. *)
Definition db_after_alice : Database :=
  {| users := users demo_db;
     projects := projects demo_db;
     milestones := {[ "m1" := {| Milestone.project_id := "p1";
                                 Milestone.amount_allocated := 50000;
                                 Milestone.status := approved |} ]};
     db_votes := [ new_vote "m1" "alice" true 1 ];
     transactions := [] |}.




(** ** Schedules of store calls *)

(** One call of a function that writes to the store.  The calls of the
    browsers reach the store in any order; [recordFunding] of
    hooks/useSupabase.js issues [insertTransaction] and
    [updateFundedAmount] together for one contribution. *)
Inductive Call :=
| CallVoteOnMilestone (milestoneId voterId : option string) (vote : bool)
    (votingPower : Z)
| CallUpdateMilestoneStatus (milestoneId : option string) (status : MilestoneStatus)
| CallInsertTransaction (projectId txHash : option string) (amount : Q) (type : TxType)
| CallUpdateFundedAmount (projectId : option string) (additionalAmount : Q).

Definition perform (c : Call) : js unit :=
  match c with
  | CallVoteOnMilestone milestoneId voterId vote votingPower =>
      voteOnMilestone milestoneId voterId vote votingPower ;; ret tt
  | CallUpdateMilestoneStatus milestoneId status =>
      updateMilestoneStatus milestoneId status ;; ret tt
  | CallInsertTransaction projectId txHash amount type =>
      insertTransaction projectId txHash amount type ;; ret tt
  | CallUpdateFundedAmount projectId additionalAmount =>
      updateFundedAmount projectId additionalAmount
  end.

(** The calls of a schedule, one after the other; what a call throws
    stays with its caller. *)
Fixpoint run (calls : list Call) (w : World) : World :=
  match calls with
  | [] => w
  | c :: calls => run calls (snd (perform c w))
  end.

(** The sum of the amounts of the funding transactions of a project, in
    units of 1e-8. *)
Fixpoint funding_sum (projectId : string) (txs : list Transaction.row) : Z :=
  match txs with
  | [] => 0
  | r :: txs =>
      (if is_funding_of projectId r then Transaction.amount r else 0)
      + funding_sum projectId txs
  end.

(** The row that a call adds to the transactions table when no fault is
    scheduled, given the projects that exist. *)
Definition recorded (known : gset string) (c : Call) : list Transaction.row :=
  match c with
  | CallInsertTransaction projectId txHash amount type =>
      let r := {| Transaction.project_id := default "" projectId;
                  Transaction.tx_hash := default "" txHash;
                  Transaction.amount := to_numeric amount;
                  Transaction.type := type |} in
      if falsy projectId || falsy txHash || Qle_bool amount 0
         || numeric_overflow (to_numeric amount) || (to_numeric amount <=? 0)
         || negb (bool_decide (default "" projectId ∈ known))
      then [] else [r]
  | _ => []
  end.

(** Two contributions of 0.01 BCH to p1 and a release, call after call. *)
Definition sequential : list Call :=
  [ CallInsertTransaction (Some "p1") (Some "h1") (1 # 100) funding;
    CallUpdateFundedAmount (Some "p1") (1 # 100);
    CallInsertTransaction (Some "p1") (Some "h2") (1 # 100) funding;
    CallUpdateFundedAmount (Some "p1") (1 # 100);
    CallInsertTransaction (Some "p1") (Some "h3") (5 # 1000) release ].

(** The same calls, those of the two contributions interleaved. *)
Definition interleaved : list Call :=
  [ CallInsertTransaction (Some "p1") (Some "h1") (1 # 100) funding;
    CallInsertTransaction (Some "p1") (Some "h2") (1 # 100) funding;
    CallUpdateFundedAmount (Some "p1") (1 # 100);
    CallUpdateFundedAmount (Some "p1") (1 # 100);
    CallInsertTransaction (Some "p1") (Some "h3") (5 # 1000) release ].

(** ** Further worlds used as concrete inputs *)



(** ** components/Dashboard.jsx *)


(** ** What the further statements observe *)

(** The sum of the voting power of rows of the votes table. *)
Definition power_sum (rows : list Vote.row) : Z :=
  foldr (fun v s => Vote.voting_power v + s) 0 rows.

(** The CHECK [voting_power >= 1] holds of every row of the votes table. *)
Definition powers_positive (db : Database) : Prop :=
  Forall (fun r => 1 <= Vote.voting_power r) (db_votes db).

(** [demo_world] after m1 has been marked released. *)
Definition released_world : World :=
  snd (updateMilestoneStatus (Some "m1") released demo_world).


(** The funded amount of a project in the store. *)
Definition funded_of (w : World) (projectId : string) : option numeric :=
  match supabase w with
  | Some db => Project.funded_amount <$> projects db !! projectId
  | None => None
  end.

(** What a call adds to the funded amount of a project when no fault is
    scheduled and the column can hold the sum. *)
Definition credited (projectId : string) (c : Call) : Z :=
  match c with
  | CallUpdateFundedAmount q additionalAmount =>
      if falsy q || Qle_bool additionalAmount 0
         || negb (bool_decide (default "" q = projectId))
      then 0 else to_numeric additionalAmount
  | _ => 0
  end.

Definition credit_sum (projectId : string) (calls : list Call) : Z :=
  foldr (fun c s => credited projectId c + s) 0 calls.

(** ** hooks/useSupabase.js *)

Module Contribution.
Record t := {
  projectId : option string;
  txHash : option string;
  amount : Q;
}.
End Contribution.

(** [recordFunding({ projectId, txHash, amount })]: the two calls that its
    [Promise.all] starts. *)
Definition recordFunding (c : Contribution.t) : list Call :=
  [ CallInsertTransaction (Contribution.projectId c) (Contribution.txHash c)
      (Contribution.amount c) funding;
    CallUpdateFundedAmount (Contribution.projectId c) (Contribution.amount c) ].

(** A contribution that has a transaction hash and an amount that the
    column holds as a positive number. *)
Definition recordable (c : Contribution.t) : Prop :=
  falsy (Contribution.txHash c) = false
  /\ 0 < to_numeric (Contribution.amount c) < 10 ^ 18.

(** Three contributions: 0.01 and 0.02 BCH to p1, and 0.5 BCH to a project
    that the store does not have. *)
Definition three_contributions : list Contribution.t :=
  [ {| Contribution.projectId := Some "p1"; Contribution.txHash := Some "h1";
       Contribution.amount := 1 # 100 |};
    {| Contribution.projectId := Some "p1"; Contribution.txHash := Some "h2";
       Contribution.amount := 2 # 100 |};
    {| Contribution.projectId := Some "p9"; Contribution.txHash := Some "h3";
       Contribution.amount := 1 # 2 |} ].

(** Their calls, in an order in which the requests of the three overlap. *)
Definition overlapping : list Call :=
  [ CallInsertTransaction (Some "p1") (Some "h1") (1 # 100) funding;
    CallUpdateFundedAmount (Some "p1") (2 # 100);
    CallUpdateFundedAmount (Some "p9") (1 # 2);
    CallInsertTransaction (Some "p1") (Some "h2") (2 # 100) funding;
    CallInsertTransaction (Some "p9") (Some "h3") (1 # 2) funding;
    CallUpdateFundedAmount (Some "p1") (1 # 100) ].

(** A contribution of 0.01 BCH to p1 that comes without a transaction
    hash. *)
Definition without_hash : Contribution.t :=
  {| Contribution.projectId := Some "p1"; Contribution.txHash := None;
     Contribution.amount := 1 # 100 |}.

(** ** pages/ProjectsPage.jsx *)

(** A milestone of the page state, as [ProjectForm] builds it:
    [{ id: i, status: 'Pending', votes: { yes: 0, no: 0 }, ... }]; the
    fields that the handlers only copy are left out. *)
Module PageMilestone.
Record t := {
  id : Z;
  votes : Tally.t;
  status : string;
}.
End PageMilestone.

Module PageProject.
Record t := {
  fundedAmount : Q;
  milestones : list PageMilestone.t;
}.
End PageProject.

(** The state update of [handleVote(milestoneId, voteType)]. *)
Definition handleVote (milestoneId : Z) (voteType : VoteType) (prev : PageProject.t)
  : PageProject.t :=
  {| PageProject.fundedAmount := PageProject.fundedAmount prev;
     PageProject.milestones :=
       map (fun m =>
              if negb (PageMilestone.id m =? milestoneId) then m else
              let updatedVotes :=
                tally_set (PageMilestone.votes m) voteType
                  (tally_get (PageMilestone.votes m) voteType + 1) in
              {| PageMilestone.id := PageMilestone.id m;
                 PageMilestone.votes := updatedVotes;
                 PageMilestone.status :=
                   if Tally.no updatedVotes <? Tally.yes updatedVotes
                   then "Approved" else "Pending" |})
           (PageProject.milestones prev) |}.

(** A page with two milestones: the first is approved by one vote. *)
Definition demo_page : PageProject.t :=
  {| PageProject.fundedAmount := 0;
     PageProject.milestones :=
       [ {| PageMilestone.id := 0;
            PageMilestone.votes := {| Tally.yes := 1; Tally.no := 0 |};
            PageMilestone.status := "Approved" |};
         {| PageMilestone.id := 1;
            PageMilestone.votes := {| Tally.yes := 0; Tally.no := 0 |};
            PageMilestone.status := "Pending" |} ] |}.

(** ** components/ProgressBar.jsx *)

(** [Math.min(a, b)]. *)
Definition Math_min (a b : Q) : Q := if Qle_bool a b then a else b.

(** [percentage] of [ProgressBar({ current, target })]. *)
Definition percentage (current target : Q) : Q :=
  if Qgtb target 0 then Math_min ((current / target) * 100) 100 else 0.

(* ================================================================== *)
(** * Properties *)

(** ** Arithmetic of the JavaScript expressions *)

Lemma Qgtb_lt (a b : Q) : Qgtb a b = true <-> (b < a)%Q.
Proof.
  unfold Qgtb. rewrite negb_true_iff. split.
  - intros H. apply Qnot_le_lt. intros Hle.
    apply Qle_bool_iff in Hle. congruence.
  - intros H. destruct (Qle_bool a b) eqn:E; [|reflexivity].
    apply Qle_bool_iff in E. exfalso. exact (Qlt_not_le _ _ H E).
Qed.

Lemma Qgtb_le (a b : Q) : Qgtb a b = false <-> (a <= b)%Q.
Proof.
  unfold Qgtb. rewrite negb_false_iff. apply Qle_bool_iff.
Qed.



Lemma half_lt_div (y t : Z) :
  0 < t -> ((1 # 2) < inject_Z y / inject_Z t)%Q <-> t < 2 * y.
Proof.
  intros Ht. destruct t as [|p|p]; try lia.
  unfold Qdiv, Qinv, inject_Z, Qmult, Qlt. simpl. lia.
Qed.

Lemma isApproved_iff (y n : Z) :
  isApproved y n = true <-> 0 < y + n /\ n < y.
Proof.
  unfold isApproved. rewrite andb_true_iff, Z.ltb_lt, Qgtb_lt. split.
  - intros [Ht H]. split; [exact Ht|]. apply half_lt_div in H; lia.
  - intros [Ht H]. split; [exact Ht|]. apply half_lt_div; lia.
Qed.


Lemma tokenAmount_floor (amountBch : Q) :
  tokenAmount amountBch = Qfloor (amountBch * 100000).
Proof.
  unfold tokenAmount, Math_floor, TOKENS_PER_UNIT.
  apply Qfloor_comp. change (inject_Z 100) with 100%Q. field.
Qed.

(** Over the exact rationals the two readings of the mint formula agree
    on the whole multiples of 0.001 BCH. *)
Lemma tokenAmount_multiple (k : Z) :
  tokenAmount (inject_Z k * (1 # 1000)) = mint_spec (inject_Z k * (1 # 1000))
  /\ tokenAmount (inject_Z k * (1 # 1000)) = 100 * k.
Proof.
  assert (H1 : tokenAmount (inject_Z k * (1 # 1000)) = 100 * k).
  { rewrite tokenAmount_floor. rewrite <- (Qfloor_Z (100 * k)).
    apply Qfloor_comp. rewrite inject_Z_mult.
    change (inject_Z 100) with 100%Q. field. }
  split; [|exact H1]. rewrite H1. unfold mint_spec.
  replace (Qfloor (inject_Z k * (1 # 1000) / (1 # 1000))) with k; [lia|].
  rewrite <- (Qfloor_Z k) at 1. apply Qfloor_comp. field.
Qed.


Lemma loadFromStorage_unreadable {A} (item : Cell A) (d : A) :
  unreadable item -> loadFromStorage item d = d.
Proof. intros [-> | ->]; reflexivity. Qed.

(** ** The store: one request *)

Ltac js_unfold :=
  unfold bind, ret, throw, try_catch, load, get_storage, set_storage in *.

Lemma has_voted_existsb db m v :
  has_voted db m v <-> existsb (same_voter m v) (db_votes db) = true.
Proof.
  unfold has_voted. rewrite existsb_exists. split.
  - intros (r & Hin & Hk). exists r. split; [by apply list_elem_of_In|].
    unfold vote_key in Hk. injection Hk as <- <-.
    unfold same_voter. by rewrite !bool_decide_eq_true_2.
  - intros (r & Hin & Hs). exists r. split; [by apply list_elem_of_In|].
    unfold same_voter in Hs. apply andb_true_iff in Hs as [H1 H2].
    apply bool_decide_eq_true_1 in H1, H2. unfold vote_key. congruence.
Qed.

Lemma insert_vote_inv r db r' db' :
  insert_vote r db = inr (r', db') ->
  r' = r
  /\ 1 <= Vote.voting_power r
  /\ ~ has_voted db (Vote.milestone_id r) (Vote.voter_id r)
  /\ is_Some (milestones db !! Vote.milestone_id r)
  /\ Vote.voter_id r ∈ users db
  /\ db_votes db' = db_votes db ++ [r]
  /\ users db' = users db /\ projects db' = projects db
  /\ milestones db' = milestones db /\ transactions db' = transactions db.
Proof.
  unfold insert_vote. intros H.
  repeat case_match; simplify_eq/=.
  rewrite has_voted_existsb.
  repeat match goal with
         | H : negb _ = false |- _ => apply negb_false_iff in H
         | H : bool_decide _ = true |- _ => apply bool_decide_eq_true_1 in H
         end.
  repeat split; try done; try lia. congruence.
Qed.


Lemma update_status_inv mid s db r' db' :
  update_status mid s db = inr (r', db') ->
  db_votes db' = db_votes db /\ users db' = users db
  /\ projects db' = projects db /\ transactions db' = transactions db
  /\ Milestone.status <$> milestones db' !! mid = Some s
  /\ (forall other, other <> mid -> milestones db' !! other = milestones db !! other).
Proof.
  unfold update_status. intros H. case_match; simplify_eq/=.
  repeat split; try done.
  - by rewrite lookup_insert_eq.
  - intros other Hne. by rewrite lookup_insert_ne.
Qed.

Lemma weight_of_app b l r :
  weight_of b (l ++ [r])
  = weight_of b l + (if Bool.eqb (Vote.vote r) b then Vote.voting_power r else 0).
Proof.
  unfold weight_of. rewrite List.filter_app, fold_left_app. simpl.
  destruct (Bool.eqb (Vote.vote r) b); simpl; lia.
Qed.

(** ** voteOnMilestone *)

Ltac invert_requests :=
  repeat match goal with
         | H : insert_vote _ _ = inr _ |- _ =>
             apply insert_vote_inv in H; simpl in H; destruct_and!
         | H : update_status _ _ _ = inr _ |- _ =>
             apply update_status_inv in H; destruct_and!
         end; simplify_eq/=.


(** Whatever the outcome, the votes table is as before or has the new row,
    and the latter only for a voter without a vote on the milestone. *)
Lemma voteOnMilestone_votes m v b p w res w' db :
  voteOnMilestone m v b p w = (res, w') ->
  supabase w = Some db ->
  exists db',
    supabase w' = Some db'
    /\ users db' = users db /\ projects db' = projects db
    /\ transactions db' = transactions db
    /\ (db_votes db' = db_votes db
        \/ (~ has_voted db (default "" m) (default "" v)
            /\ db_votes db'
               = db_votes db ++ [new_vote (default "" m) (default "" v) b p])).
Proof.
  unfold voteOnMilestone, updateMilestoneStatus, request, select_votes. js_unfold.
  intros H Hdb.
  repeat (case_match; simplify_eq/=); invert_requests;
    (eexists; split; [first [eassumption | reflexivity]|]);
    repeat split; try congruence; eauto.
  all: right; split; [done|unfold new_vote; congruence].
Qed.

(** A call that returns. *)
Lemma voteOnMilestone_ok m v b p w r w' :
  voteOnMilestone m v b p w = (inr r, w') ->
  exists db db',
    supabase w = Some db /\ supabase w' = Some db'
    /\ falsy m = false /\ falsy v = false /\ 1 <= p
    /\ ~ has_voted db (default "" m) (default "" v)
    /\ VoteResult.voteRecord r = new_vote (default "" m) (default "" v) b p
    /\ db_votes db' = db_votes db ++ [VoteResult.voteRecord r]
    /\ VoteResult.yesWeight r = weight_of true (votes_for (default "" m) (db_votes db'))
    /\ VoteResult.noWeight r = weight_of false (votes_for (default "" m) (db_votes db'))
    /\ VoteResult.total r = VoteResult.yesWeight r + VoteResult.noWeight r
    /\ VoteResult.milestoneApproved r = isApproved (VoteResult.yesWeight r) (VoteResult.noWeight r)
    /\ VoteResult.yesPercent r = yesPercent (VoteResult.yesWeight r) (VoteResult.noWeight r)
    /\ status_of w' (default "" m)
       = if VoteResult.milestoneApproved r then Some approved
         else if 0 <? VoteResult.total r then Some voting
         else status_of w (default "" m).
Proof.
  unfold voteOnMilestone, updateMilestoneStatus, request, select_votes. js_unfold.
  intros H.
  repeat (case_match; simplify_eq/=); invert_requests.
  all: do 2 eexists; split; [reflexivity|]; split; [reflexivity|].
  all: unfold status_of, new_vote, isApproved, yesPercent,
         APPROVAL_THRESHOLD in *; simpl.
  all: repeat match goal with
           | H : db_votes _ = _ |- _ => rewrite H in *
           end.
  all: repeat match goal with
           | H : ?x = true |- context [?x] => rewrite H
           | H : ?x = false |- context [?x] => rewrite H
           end.
  all: repeat split; try done; try lia.
  all: match goal with
       | H : supabase _ = Some _, H' : milestones _ = _ |- _ => rewrite H, H'
       end; reflexivity.
Qed.



Lemma supabase_after_alice : supabase after_alice = Some db_after_alice.
Proof. reflexivity. Qed.



(** The tally of a call that returns: the tally before, plus the vote. *)
Lemma voteOnMilestone_tally m v b p w r w' :
  voteOnMilestone m v b p w = (inr r, w') ->
  exists db,
    supabase w = Some db
    /\ VoteResult.yesWeight r
       = weight_of true (votes_for (default "" m) (db_votes db)) + (if b then p else 0)
    /\ VoteResult.noWeight r
       = weight_of false (votes_for (default "" m) (db_votes db)) + (if b then 0 else p).
Proof.
  intros H. apply voteOnMilestone_ok in H
    as (db & db' & Hdb & _ & _ & _ & _ & _ & Hr & Hvotes & Hy & Hn & _).
  exists db. split; [done|].
  rewrite Hy, Hn, Hvotes, Hr. unfold votes_for.
  rewrite List.filter_app. simpl. rewrite bool_decide_eq_true_2 by done.
  rewrite !weight_of_app. simpl. by destruct b.
Qed.

(** ** castVote *)

Lemma castVote_rejected milestoneId voteType weight w balance :
  fst (getTokenBalance w) = inr balance ->
  balance < weight ->
  castVote milestoneId voteType weight w = (inl (NotEnoughTokens balance), w).
Proof.
  unfold getTokenBalance, castVote. js_unfold. simpl.
  intros [= Hb] Hw. rewrite Hb. apply Z.ltb_lt in Hw. by rewrite Hw.
Qed.

Lemma castVote_accepted milestoneId voteType weight w balance tally :
  fst (getTokenBalance w) = inr balance ->
  fst (getMilestoneVotes milestoneId w) = inr tally ->
  weight <= balance ->
  exists r w',
    castVote milestoneId voteType weight w = (inr r, w')
    /\ CastResult.tokenBalance r = balance - weight
    /\ CastResult.votes r = tally_set tally voteType (tally_get tally voteType + weight)
    /\ CastResult.isApproved r = isApproved (Tally.yes (CastResult.votes r)) (Tally.no (CastResult.votes r))
    /\ CastResult.yesPercent r = yesPercent (Tally.yes (CastResult.votes r)) (Tally.no (CastResult.votes r))
    /\ fst (getTokenBalance w') = inr (balance - weight)
    /\ fst (getMilestoneVotes milestoneId w') = inr (CastResult.votes r)
    /\ (forall other, other <> milestoneId ->
          fst (getMilestoneVotes other w') = fst (getMilestoneVotes other w))
    /\ wallet w' = wallet w /\ supabase w' = supabase w.
Proof.
  unfold getTokenBalance, getMilestoneVotes, castVote. js_unfold. simpl.
  intros [= <-] [= <-] Hw. apply Z.ltb_ge in Hw. rewrite Hw. simpl.
  do 2 eexists. split; [reflexivity|]. simpl.
  repeat split; try done.
  - by rewrite lookup_insert_eq.
  - intros other Hne. by rewrite lookup_insert_ne.
Qed.


(** ** fundMilestoneContract *)



(** ** hasUserVoted *)

Lemma count_positive {A} (f : A -> bool) (l : list A) :
  (0 <? Z.of_nat (length (List.filter f l))) = existsb f l.
Proof.
  induction l as [|a l IH]; [done|]. simpl. destruct (f a); [|done].
  simpl. by apply Z.ltb_lt.
Qed.

(** ** getProjectFundingTotal and the schedules *)






Lemma funding_sum_app projectId l1 l2 :
  funding_sum projectId (l1 ++ l2)
  = funding_sum projectId l1 + funding_sum projectId l2.
Proof. induction l1 as [|r l1 IH]; simpl; lia. Qed.

Lemma funding_sum_Permutation projectId l1 l2 :
  Permutation l1 l2 -> funding_sum projectId l1 = funding_sum projectId l2.
Proof. induction 1; simpl; lia. Qed.


(** What the calls leave of the store *)

Lemma voteOnMilestone_faults m v b p w res w' :
  voteOnMilestone m v b p w = (res, w') ->
  faults w = [] ->
  faults w' = [].
Proof.
  unfold voteOnMilestone, updateMilestoneStatus, request. js_unfold.
  destruct w as [ls wl nw sb fl]. simpl. intros H ->.
  repeat (case_match; simplify_eq/=); done.
Qed.

Lemma updateMilestoneStatus_db m s w res w' db :
  updateMilestoneStatus m s w = (res, w') ->
  supabase w = Some db ->
  exists db',
    supabase w' = Some db'
    /\ db_votes db' = db_votes db
    /\ projects db' = projects db
    /\ transactions db' = transactions db
    /\ (faults w = [] -> faults w' = []).
Proof.
  unfold updateMilestoneStatus, request. js_unfold.
  destruct w as [ls wl nw sb fl]. simpl. intros H ->.
  repeat (case_match; simplify_eq/=); invert_requests;
    (eexists; split; [reflexivity|]);
    repeat split; try congruence; try done.
Qed.





Ltac nothing_recorded db :=
  exists db; simpl; rewrite ?app_nil_r; done.

Lemma perform_recorded c w db :
  supabase w = Some db ->
  faults w = [] ->
  exists db',
    supabase (snd (perform c w)) = Some db'
    /\ faults (snd (perform c w)) = []
    /\ transactions db' = transactions db ++ recorded (dom (projects db)) c
    /\ dom (projects db') = dom (projects db).
Proof.
  intros Hdb Hf.
  assert (Hsame : forall p,
            bool_decide (p ∈ dom (projects db))
            = bool_decide (is_Some (projects db !! p))).
  { intros p. apply bool_decide_ext, elem_of_dom. }
  destruct c as [m v b p|m s|p h a t|p a]; unfold perform, recorded.
  - unfold bind. destruct (voteOnMilestone m v b p w) as [res w'] eqn:H.
    destruct (voteOnMilestone_votes _ _ _ _ _ _ _ _ H Hdb)
      as (db' & Hdb' & _ & Hp & Ht & _).
    pose proof (voteOnMilestone_faults _ _ _ _ _ _ _ H Hf) as Hf'.
    exists db'. rewrite app_nil_r, Hp. by destruct res.
  - unfold bind. destruct (updateMilestoneStatus m s w) as [res w'] eqn:H.
    destruct (updateMilestoneStatus_db _ _ _ _ _ _ H Hdb)
      as (db' & Hdb' & _ & Hp & Ht & Hf').
    exists db'. rewrite app_nil_r, Hp. destruct res; simpl; auto.
  - unfold insertTransaction, request, insert_transaction. js_unfold.
    rewrite Hsame.
    destruct (falsy p); [nothing_recorded db|].
    destruct (falsy h); [nothing_recorded db|].
    destruct (Qle_bool a 0); [nothing_recorded db|].
    simpl. rewrite Hdb, Hf. simpl.
    destruct (numeric_overflow (to_numeric a)); [nothing_recorded db|].
    destruct (to_numeric a <=? 0); [nothing_recorded db|].
    destruct (bool_decide (is_Some (projects db !! default "" p)));
      simpl; [|nothing_recorded db].
    eexists. split; [reflexivity|]. done.
  - unfold updateFundedAmount, request, increment_funded_amount. js_unfold.
    destruct (falsy p); [nothing_recorded db|].
    destruct (Qle_bool a 0); [nothing_recorded db|].
    simpl. rewrite Hdb, Hf. simpl.
    destruct (projects db !! default "" p) as [r|] eqn:Hr; simpl;
      [|nothing_recorded db].
    destruct (numeric_overflow _); [nothing_recorded db|].
    destruct (_ <? 0); [nothing_recorded db|].
    simpl. eexists. split; [reflexivity|]. simpl.
    split; [done|]. split; [by rewrite app_nil_r|].
    rewrite dom_insert_L. apply subseteq_union_1_L, singleton_subseteq_l.
    by apply elem_of_dom_2 in Hr.
Qed.

Lemma run_recorded calls w db :
  supabase w = Some db ->
  faults w = [] ->
  exists db',
    supabase (run calls w) = Some db'
    /\ faults (run calls w) = []
    /\ transactions db'
       = transactions db ++ flat_map (recorded (dom (projects db))) calls.
Proof.
  revert w db. induction calls as [|c calls IH]; intros w db Hdb Hf; simpl.
  - exists db. by rewrite app_nil_r.
  - destruct (perform_recorded c w db Hdb Hf) as (db1 & Hdb1 & Hf1 & Ht1 & Hd1).
    destruct (IH _ _ Hdb1 Hf1) as (db' & Hdb' & Hf' & Ht').
    exists db'. split; [done|]. split; [done|].
    by rewrite Ht', Ht1, Hd1, <- app_assoc.
Qed.

(** * The claims *)






(** C3, as stated, fails: m1 is approved after alice's YES of weight 1,
    and bob's NO of weight 2 returns it to voting. *)
Lemma approval_reverts_counterexample :
  status_of after_alice "m1" = Some approved
  /\ fst (voteOnMilestone (Some "m1") (Some "bob") false 2 after_alice)
     = inr {| VoteResult.voteRecord := new_vote "m1" "bob" false 2;
              VoteResult.milestoneApproved := false; VoteResult.yesPercent := 33;
              VoteResult.yesWeight := 1; VoteResult.noWeight := 2; VoteResult.total := 3 |}
  /\ status_of (snd (voteOnMilestone (Some "m1") (Some "bob") false 2 after_alice)) "m1"
     = Some voting.
Proof. repeat split. Qed.

(** C3, amended.  Approval is recomputed at every vote, not latched.  A
    call of [voteOnMilestone] that returns has added the vote to the
    milestone's tally and has set the status from that tally: approved
    when the yes weight exceeds the no weight, voting when it does not.
    So a milestone whose tally was approving stays approved after a
    further YES vote, and returns to voting after a vote that takes the
    majority away. *)
Theorem status_follows_live_tally m v b p w r w' :
  voteOnMilestone m v b p w = (inr r, w') ->
  (exists db,
     supabase w = Some db
     /\ VoteResult.yesWeight r
        = weight_of true (votes_for (default "" m) (db_votes db)) + (if b then p else 0)
     /\ VoteResult.noWeight r
        = weight_of false (votes_for (default "" m) (db_votes db)) + (if b then 0 else p)
     /\ (b = true ->
         isApproved (weight_of true (votes_for (default "" m) (db_votes db)))
                    (weight_of false (votes_for (default "" m) (db_votes db))) = true ->
         status_of w' (default "" m) = Some approved))
  /\ (VoteResult.noWeight r < VoteResult.yesWeight r -> 0 < VoteResult.yesWeight r + VoteResult.noWeight r ->
      status_of w' (default "" m) = Some approved)
  /\ (VoteResult.yesWeight r <= VoteResult.noWeight r -> 0 < VoteResult.yesWeight r + VoteResult.noWeight r ->
      status_of w' (default "" m) = Some voting).
Proof.
  intros H.
  destruct (voteOnMilestone_tally _ _ _ _ _ _ _ H) as (db & Hdb & Hy & Hn).
  apply voteOnMilestone_ok in H
    as (db0 & db' & _ & _ & _ & _ & Hp & _ & _ & _ & _ & _ & Ht & Ha & _ & Hs).
  assert (Hyes : VoteResult.noWeight r < VoteResult.yesWeight r -> 0 < VoteResult.yesWeight r + VoteResult.noWeight r ->
                 status_of w' (default "" m) = Some approved).
  { intros H1 H2. rewrite Hs.
    assert (Hap : isApproved (VoteResult.yesWeight r) (VoteResult.noWeight r) = true)
      by (apply isApproved_iff; lia).
    by rewrite Ha, Hap. }
  split; [|split; [exact Hyes|]].
  - exists db. repeat split; try done.
    intros -> Hbefore. apply isApproved_iff in Hbefore. apply Hyes; lia.
  - intros H1 H2. rewrite Hs, Ha, Ht.
    destruct (isApproved (VoteResult.yesWeight r) (VoteResult.noWeight r)) eqn:Hap.
    + apply isApproved_iff in Hap. lia.
    + apply Z.ltb_lt in H2. by rewrite H2.
Qed.

(** Bob votes YES with weight 2 on the approved m1: it stays approved. *)
Lemma status_follows_live_tally_witness :
  status_of after_alice "m1" = Some approved
  /\ status_of (snd (voteOnMilestone (Some "m1") (Some "bob") true 2 after_alice)) "m1"
     = Some approved.
Proof.
  split; [reflexivity|].
  destruct (status_follows_live_tally (Some "m1") (Some "bob") true 2 after_alice
              _ _ eq_refl) as (_ & Hyes & _).
  apply Hyes; vm_compute; reflexivity.
Defined.









(** C7.  [castVote] with a weight above the balance throws 'Not enough
    tokens' and leaves the world, the balance with it, as it was; with a
    weight that the balance covers it returns, and the balance is lower by
    exactly the weight. *)
Theorem castVote_balance_check milestoneId voteType weight w balance :
  fst (getTokenBalance w) = inr balance ->
  (balance < weight ->
     castVote milestoneId voteType weight w = (inl (NotEnoughTokens balance), w))
  /\ (weight <= balance ->
      exists r w',
        castVote milestoneId voteType weight w = (inr r, w')
        /\ CastResult.tokenBalance r = balance - weight
        /\ fst (getTokenBalance w') = inr (balance - weight)).
Proof.
  intros Hb. split.
  - by apply castVote_rejected.
  - intros Hw.
    destruct (castVote_accepted milestoneId voteType weight w balance _ Hb eq_refl Hw)
      as (r & w' & Hc & Hr & _ & _ & _ & Hb' & _).
    by exists r, w'.
Qed.

(** Scenario C: 60 units are cast from a balance of 50. *)
Lemma castVote_balance_check_witness :
  fst (getTokenBalance demo_world) = inr 50
  /\ castVote "m1" yes 60 demo_world = (inl (NotEnoughTokens 50), demo_world).
Proof.
  split; [reflexivity|].
  apply (castVote_balance_check "m1" yes 60 demo_world 50 eq_refl). lia.
Defined.







(* ================================================================== *)
(** * Further properties of the code *)

(** ** The browser-local ledger *)

Lemma Qfloor_unique (x : Q) (z : Z) :
  (inject_Z z <= x)%Q -> (x < inject_Z (z + 1))%Q -> Qfloor x = z.
Proof.
  intros Hl Hu.
  assert (H1 : z <= Qfloor x).
  { rewrite <- (Qfloor_Z z). by apply Qfloor_resp_le. }
  assert (H2 : Qfloor x < z + 1).
  { rewrite Zlt_Qlt. eapply Qle_lt_trans; [apply Qfloor_le|exact Hu]. }
  lia.
Qed.

Lemma Qfloor_plus_Z (n : Z) (x : Q) : Qfloor (inject_Z n + x) = n + Qfloor x.
Proof.
  apply Qfloor_unique.
  - rewrite inject_Z_plus. apply Qplus_le_r. apply Qfloor_le.
  - replace (n + Qfloor x + 1) with (n + (Qfloor x + 1)) by lia.
    rewrite inject_Z_plus. apply Qplus_lt_r. apply Qlt_floor.
Qed.
























(** ** The vote bar *)




(** ** The votes table *)

Lemma insert_vote_23505 r db err :
  insert_vote r db = inl err ->
  code err = "23505" ->
  has_voted db (Vote.milestone_id r) (Vote.voter_id r).
Proof.
  unfold insert_vote. intros H Hc. apply has_voted_existsb.
  repeat case_match; simplify_eq/=; done.
Qed.

(** X11.  A vote that is refused for another reason than a store error
    leaves no trace.  The validation errors and the null client come
    before any request, so the world is as it was; 'You have already
    voted' leaves the tables and the browser storage as they were, and is
    thrown only when the voter has a vote on the milestone or the store
    itself answered the insert with code 23505. *)
Theorem refused_vote_leaves_no_trace m v b p w e w' :
  voteOnMilestone m v b p w = (inl e, w') ->
  (forall msg, e <> StoreError msg) ->
  supabase w' = supabase w
  /\ localStorage w' = localStorage w
  /\ (e <> AlreadyVoted -> w' = w)
  /\ (e = AlreadyVoted ->
      exists db,
        supabase w = Some db
        /\ (has_voted db (default "" m) (default "" v)
            \/ exists err rest, faults w = Some err :: rest /\ code err = "23505")).
Proof.
  unfold voteOnMilestone, updateMilestoneStatus, request. js_unfold.
  intros H Hne.
  repeat (case_match; simplify_eq/=);
    try (by destruct (Hne _ eq_refl));
    (split; [done|]); (split; [done|]); (split; [done|]); try done.
  all: intros _; eexists; (split; [reflexivity|]).
  all: repeat match goal with
           | Hc : bool_decide _ = true |- _ => apply bool_decide_eq_true in Hc
           end.
  all: first
         [ right; eexists _, _; split; [reflexivity|]; assumption
         | left;
           match goal with
           | Hins : insert_vote _ _ = inl _ |- _ =>
               apply (insert_vote_23505 _ _ _ Hins); assumption
           end ].
Qed.

(** Bob's vote of weight 0, and alice's second vote. *)
Lemma refused_vote_leaves_no_trace_witness :
  voteOnMilestone (Some "m1") (Some "bob") true 0 after_alice
  = (inl VotingPowerBelowOne, after_alice)
  /\ supabase (snd (voteOnMilestone (Some "m1") (Some "alice") false 7 after_alice))
     = supabase after_alice.
Proof.
  split.
  - destruct (voteOnMilestone (Some "m1") (Some "bob") true 0 after_alice)
      as [[e|r] w'] eqn:H; [|vm_compute in H; discriminate].
    assert (He : e = VotingPowerBelowOne) by (vm_compute in H; congruence).
    subst e.
    destruct (refused_vote_leaves_no_trace _ _ _ _ _ _ _ H) as (_ & _ & Hw & _);
      [discriminate|].
    by rewrite Hw.
  - destruct (voteOnMilestone (Some "m1") (Some "alice") false 7 after_alice)
      as [[e|r] w'] eqn:H; [|vm_compute in H; discriminate].
    assert (He : e = AlreadyVoted) by (vm_compute in H; congruence).
    subst e.
    by destruct (refused_vote_leaves_no_trace _ _ _ _ _ _ _ H) as (Hs & _).
Defined.

Lemma fold_left_power (l : list Vote.row) (acc : Z) :
  fold_left (fun s v => s + Vote.voting_power v) l acc = acc + power_sum l.
Proof.
  revert acc. induction l as [|r l IH]; intros acc; simpl; [lia|].
  rewrite IH. lia.
Qed.

Lemma weight_of_split (l : list Vote.row) :
  weight_of true l + weight_of false l = power_sum l.
Proof.
  unfold weight_of. rewrite !fold_left_power.
  induction l as [|r l IH]; simpl; [done|].
  destruct (Vote.vote r); simpl; lia.
Qed.

Lemma weight_of_nonneg b (l : list Vote.row) :
  Forall (fun r => 1 <= Vote.voting_power r) l -> 0 <= weight_of b l.
Proof.
  unfold weight_of. rewrite fold_left_power.
  induction 1 as [|r l Hr Hl IH]; simpl; [done|].
  destruct (Bool.eqb (Vote.vote r) b); simpl; lia.
Qed.

Lemma votes_for_Forall (P : Vote.row -> Prop) mid l :
  Forall P l -> Forall P (votes_for mid l).
Proof.
  unfold votes_for. induction 1 as [|r l Hr Hl IH]; simpl; [done|].
  case_bool_decide; [by constructor|done].
Qed.

(** X12.  The tally that [voteOnMilestone] returns is recomputed from the
    table: its total is the sum of the voting power of all the votes that
    the milestone has after the insert, the new vote among them, and the
    votes on other milestones do not count. *)
Theorem returned_tally_is_recomputed m v b p w r w' :
  voteOnMilestone m v b p w = (inr r, w') ->
  exists db db',
    supabase w = Some db
    /\ supabase w' = Some db'
    /\ VoteResult.total r = power_sum (votes_for (default "" m) (db_votes db'))
    /\ VoteResult.total r = power_sum (votes_for (default "" m) (db_votes db)) + p
    /\ VoteResult.yesWeight r + VoteResult.noWeight r = VoteResult.total r.
Proof.
  intros H. apply voteOnMilestone_ok in H
    as (db & db' & Hdb & Hdb' & _ & _ & _ & _ & Hr & Hvotes & Hy & Hn & Ht & _).
  exists db, db'. split; [done|]. split; [done|].
  rewrite Ht, Hy, Hn, weight_of_split. split; [done|]. split; [|done].
  rewrite Hvotes, Hr. unfold votes_for. rewrite List.filter_app. simpl.
  rewrite bool_decide_eq_true_2 by done.
  unfold power_sum. rewrite foldr_app. simpl.
  generalize (List.filter (fun r0 => bool_decide (Vote.milestone_id r0 = default "" m))
                (db_votes db)).
  intros l. induction l as [|x l IH]; simpl; lia.
Qed.

(** Bob's NO of weight 2 after alice's YES of weight 1: the total is 3. *)
Lemma returned_tally_is_recomputed_witness :
  exists r w',
    voteOnMilestone (Some "m1") (Some "bob") false 2 after_alice = (inr r, w')
    /\ VoteResult.total r = 1 + 2.
Proof.
  destruct (voteOnMilestone (Some "m1") (Some "bob") false 2 after_alice)
    as [[e|r] w'] eqn:H; [vm_compute in H; discriminate|].
  exists r, w'. split; [reflexivity|].
  destruct (returned_tally_is_recomputed _ _ _ _ _ _ _ H)
    as (db & db' & Hdb & _ & _ & Ht & _).
  rewrite Ht. rewrite supabase_after_alice in Hdb. injection Hdb as <-. reflexivity.
Defined.

Lemma voteOnMilestone_answers m v b p w r w' :
  voteOnMilestone m v b p w = (inr r, w') -> store_answers w.
Proof.
  unfold voteOnMilestone, request, store_answers. js_unfold.
  intros H e rest Hf.
  repeat (case_match; simplify_eq/=).
Qed.

(** X13.  [voteOnMilestone] does not look at the status that the milestone
    has.  While every vote of the table has a voting power of at least 1,
    a vote that returns leaves the milestone approved when the new tally
    has more YES than NO and in voting otherwise, whatever the status was
    before: a released or rejected milestone is open again. *)
Theorem vote_overwrites_any_status m v b p w r w' db :
  voteOnMilestone m v b p w = (inr r, w') ->
  supabase w = Some db ->
  powers_positive db ->
  0 < VoteResult.total r
  /\ status_of w' (default "" m)
     = Some (if VoteResult.noWeight r <? VoteResult.yesWeight r
             then approved else voting).
Proof.
  intros H Hdb Hpos.
  destruct (voteOnMilestone_tally _ _ _ _ _ _ _ H) as (db0 & Hdb0 & Hy & Hn).
  rewrite Hdb in Hdb0. injection Hdb0 as <-.
  apply voteOnMilestone_ok in H
    as (_ & _ & _ & _ & _ & _ & Hp & _ & _ & _ & _ & _ & Ht & Happ & _ & Hst).
  pose proof (weight_of_nonneg true _
                (votes_for_Forall _ (default "" m) _ Hpos)) as Hy0.
  pose proof (weight_of_nonneg false _
                (votes_for_Forall _ (default "" m) _ Hpos)) as Hn0.
  assert (Htot : 0 < VoteResult.total r) by (destruct b; lia).
  split; [done|].
  rewrite Hst, Happ.
  destruct (isApproved _ _) eqn:E.
  - apply isApproved_iff in E as [_ E].
    by rewrite (proj2 (Z.ltb_lt _ _) E).
  - rewrite (proj2 (Z.ltb_lt _ _) Htot).
    destruct (VoteResult.noWeight r <? VoteResult.yesWeight r) eqn:E'; [|done].
    apply Z.ltb_lt in E'.
    assert (isApproved (VoteResult.yesWeight r) (VoteResult.noWeight r) = true)
      by (apply isApproved_iff; lia).
    congruence.
Qed.

(** m1 is released; bob votes NO with weight 2 and m1 is in voting. *)
Lemma vote_overwrites_any_status_witness :
  status_of released_world "m1" = Some released
  /\ status_of (snd (voteOnMilestone (Some "m1") (Some "bob") false 2 released_world))
       "m1" = Some voting.
Proof.
  split; [vm_compute; reflexivity|].
  destruct (voteOnMilestone (Some "m1") (Some "bob") false 2 released_world)
    as [[e|r] w'] eqn:H; [vm_compute in H; discriminate|].
  destruct (supabase released_world) as [db|] eqn:Hdb; [|vm_compute in Hdb; discriminate].
  assert (Hpos : powers_positive db).
  { assert (Hv : db_votes db = []) by (vm_compute in Hdb; by injection Hdb as <-).
    unfold powers_positive. rewrite Hv. constructor. }
  destruct (vote_overwrites_any_status _ _ _ _ _ _ _ _ H Hdb Hpos) as [_ Hst].
  cbn [snd]. simpl default in Hst. rewrite Hst.
  assert (Hr : (VoteResult.noWeight r <? VoteResult.yesWeight r) = false)
    by (vm_compute in H; injection H as <- _; reflexivity).
  by rewrite Hr.
Defined.


Lemma insert_vote_foreign_key r db :
  1 <= Vote.voting_power r ->
  ~ has_voted db (Vote.milestone_id r) (Vote.voter_id r) ->
  milestones db !! Vote.milestone_id r = None \/ Vote.voter_id r ∉ users db ->
  exists e, insert_vote r db = inl e /\ code e = "23503".
Proof.
  intros Hp Hnv Hfk. unfold insert_vote.
  rewrite (proj2 (Z.ltb_ge _ _) Hp).
  destruct (existsb _ _) eqn:E; [by apply has_voted_existsb in E|].
  case_bool_decide; simpl; [|by eexists].
  case_bool_decide; simpl; [|by eexists].
  destruct Hfk as [Hm|Hu]; [|done].
  rewrite Hm in *. by destruct (is_Some_None (A:=Milestone.row)).
Qed.

(** X14.  A vote on a milestone that the store does not have, or by a
    voter that it does not have, is refused by the foreign keys of the
    votes table: [voteOnMilestone] throws the message of the store, and
    neither a vote nor a status is written. *)
Theorem vote_on_unknown_row_is_refused m v b p w db :
  supabase w = Some db ->
  faults w = [] ->
  m <> "" -> v <> "" -> 1 <= p ->
  ~ has_voted db m v ->
  milestones db !! m = None \/ v ∉ users db ->
  exists msg w',
    voteOnMilestone (Some m) (Some v) b p w = (inl (StoreError msg), w')
    /\ supabase w' = Some db
    /\ faults w' = [].
Proof.
  intros Hdb Hf Hm Hv Hp Hnv Hfk.
  destruct (insert_vote_foreign_key (new_vote m v b p) db Hp Hnv Hfk)
    as (e & He & Hc).
  unfold voteOnMilestone, request. js_unfold. simpl.
  rewrite !bool_decide_eq_false_2 by done.
  rewrite (proj2 (Z.ltb_ge _ _) Hp), Hdb, Hf.
  unfold new_vote in He. rewrite He.
  rewrite bool_decide_eq_false_2 by (rewrite Hc; discriminate).
  by eexists _, _.
Qed.

(** Carol, who is not a user, votes on m1. *)
Lemma vote_on_unknown_row_is_refused_witness :
  exists msg w',
    voteOnMilestone (Some "m1") (Some "carol") true 1 demo_world
    = (inl (StoreError msg), w')
    /\ supabase w' = Some demo_db.
Proof.
  destruct (vote_on_unknown_row_is_refused "m1" "carol" true 1 demo_world demo_db)
    as (msg & w' & H & Hdb & _); try done.
  - intros (r & Hin & _). vm_compute in Hin. by apply elem_of_nil in Hin.
  - right. vm_compute. set_solver.
  - by exists msg, w'.
Defined.



Lemma hasUserVoted_answer m v w db :
  supabase w = Some db ->
  store_answers w ->
  falsy m = false -> falsy v = false ->
  fst (hasUserVoted m v w)
  = inr (existsb (same_voter (default "" m) (default "" v)) (db_votes db)).
Proof.
  intros Hdb Hf Hm Hv. unfold hasUserVoted, request, count_votes. js_unfold.
  rewrite Hm, Hv. simpl. rewrite Hdb.
  destruct (faults w) as [|[e|] rest] eqn:E; simpl.
  - by rewrite count_positive.
  - by destruct (Hf e rest).
  - by rewrite count_positive.
Qed.

(** X16.  [hasUserVoted] follows the votes table: for a vote that
    [voteOnMilestone] has recorded it answers false before the call and,
    when the store answers, true after it. *)
Theorem hasUserVoted_tracks_vote m v b p w r w' :
  voteOnMilestone m v b p w = (inr r, w') ->
  fst (hasUserVoted m v w) = inr false
  /\ (store_answers w' -> fst (hasUserVoted m v w') = inr true).
Proof.
  intros H. pose proof (voteOnMilestone_answers _ _ _ _ _ _ _ H) as Hans.
  apply voteOnMilestone_ok in H
    as (db & db' & Hdb & Hdb' & Hm & Hv & _ & Hnv & Hr & Hvotes & _).
  split.
  - rewrite (hasUserVoted_answer _ _ _ _ Hdb Hans Hm Hv).
    destruct (existsb _ _) eqn:E; [|done].
    by apply has_voted_existsb in E.
  - intros Hans'. rewrite (hasUserVoted_answer _ _ _ _ Hdb' Hans' Hm Hv).
    f_equal. apply has_voted_existsb.
    exists (VoteResult.voteRecord r). split; [|by rewrite Hr].
    rewrite Hvotes. apply elem_of_app. right. by apply list_elem_of_singleton.
Qed.

(** Alice's vote on m1. *)
Lemma hasUserVoted_tracks_vote_witness :
  fst (hasUserVoted (Some "m1") (Some "alice") demo_world) = inr false
  /\ fst (hasUserVoted (Some "m1") (Some "alice") after_alice) = inr true.
Proof.
  destruct (voteOnMilestone (Some "m1") (Some "alice") true 1 demo_world)
    as [[e|r] w'] eqn:H; [vm_compute in H; discriminate|].
  destruct (hasUserVoted_tracks_vote _ _ _ _ _ _ _ H) as [H0 H1].
  split; [done|].
  unfold after_alice. rewrite H. cbn [snd]. apply H1.
  intros e rest Hf.
  assert (Hw : faults w' = []) by (vm_compute in H; by injection H as _ <-).
  by rewrite Hw in Hf.
Defined.

Lemma updateMilestoneStatus_ok m s w r w' :
  updateMilestoneStatus m s w = (inr r, w') ->
  exists db old,
    supabase w = Some db
    /\ falsy m = false
    /\ milestones db !! default "" m = Some old
    /\ r = {| Milestone.project_id := Milestone.project_id old;
              Milestone.amount_allocated := Milestone.amount_allocated old;
              Milestone.status := s |}
    /\ supabase w'
       = Some {| users := users db; projects := projects db;
                 milestones := <[default "" m := r]> (milestones db);
                 db_votes := db_votes db;
                 transactions := transactions db |}.
Proof.
  unfold updateMilestoneStatus, request, update_status. js_unfold.
  intros H. repeat (case_match; simplify_eq/=); by eexists _, _.
Qed.

Lemma updateMilestoneStatus_returns m s w db old :
  supabase w = Some db ->
  store_answers w ->
  falsy m = false ->
  milestones db !! default "" m = Some old ->
  exists r w', updateMilestoneStatus m s w = (inr r, w').
Proof.
  intros Hdb Hans Hm Hold.
  unfold updateMilestoneStatus, request, update_status. js_unfold.
  rewrite Hm. simpl. rewrite Hdb, Hold.
  destruct (faults w) as [|[e|] rest] eqn:E; simpl; try by eexists _, _.
  by destruct (Hans e rest).
Qed.

(** X17.  [updateMilestoneStatus] has no rule on which status may follow
    which.  After an update that returned, an update to any other status
    returns too when the store answers, and the last one wins: the
    milestone has the second status, its project and its amount are as
    before, and the other milestones and the votes are as they were
    before the first update. *)
Theorem any_status_follows_any_status m s1 s2 w r1 w1 :
  updateMilestoneStatus m s1 w = (inr r1, w1) ->
  store_answers w1 ->
  exists r2 w2 db db2,
    updateMilestoneStatus m s2 w1 = (inr r2, w2)
    /\ supabase w = Some db
    /\ supabase w2 = Some db2
    /\ Milestone.status r1 = s1
    /\ Milestone.status r2 = s2
    /\ status_of w2 (default "" m) = Some s2
    /\ Milestone.project_id r2 = Milestone.project_id r1
    /\ Milestone.amount_allocated r2 = Milestone.amount_allocated r1
    /\ (forall other, other <> default "" m ->
          milestones db2 !! other = milestones db !! other)
    /\ db_votes db2 = db_votes db.
Proof.
  intros H1 Hans.
  apply updateMilestoneStatus_ok in H1 as (db & old & Hdb & Hm & Hold & Hr1 & Hdb1).
  destruct (updateMilestoneStatus_returns m s2 w1 _ r1 Hdb1 Hans Hm)
    as (r2 & w2 & H2); [simpl; by rewrite lookup_insert_eq|].
  pose proof H2 as H2'.
  apply updateMilestoneStatus_ok in H2' as (db1 & old1 & Hdb1' & _ & Hold1 & Hr2 & Hdb2).
  rewrite Hdb1 in Hdb1'. injection Hdb1' as <-. simpl in *.
  rewrite lookup_insert_eq in Hold1. injection Hold1 as <-.
  eexists r2, w2, db, _. split; [done|]. split; [done|]. split; [exact Hdb2|].
  unfold status_of. rewrite Hdb2. simpl. rewrite lookup_insert_eq.
  subst r1 r2. simpl. repeat split; try done.
  intros other Hne. by rewrite !lookup_insert_ne.
Qed.

(** m1 is approved in [after_alice]; it is set to released and then back
    to pending. *)
Lemma any_status_follows_any_status_witness :
  exists w1 r2 w2,
    snd (updateMilestoneStatus (Some "m1") released after_alice) = w1
    /\ updateMilestoneStatus (Some "m1") pending w1 = (inr r2, w2)
    /\ status_of w2 "m1" = Some pending.
Proof.
  destruct (updateMilestoneStatus (Some "m1") released after_alice)
    as [[e|r1] w1] eqn:H; [vm_compute in H; discriminate|].
  assert (Hans : store_answers w1).
  { intros e rest Hf.
    assert (Hw : faults w1 = []) by (vm_compute in H; by injection H as _ <-).
    by rewrite Hw in Hf. }
  destruct (any_status_follows_any_status _ _ pending _ _ _ H Hans)
    as (r2 & w2 & db & db2 & H2 & _ & _ & _ & _ & Hst & _).
  by exists w1, r2, w2.
Defined.

(** ** The transactions and the funded amount *)

Lemma to_numeric_nonneg (a : Q) :
  (0 <= a)%Q -> to_numeric a = Qfloor (a * inject_Z (10 ^ 8) + (1 # 2)).
Proof.
  intros Ha. unfold to_numeric, Qltb, Qgtb.
  by rewrite (proj2 (Qle_bool_iff 0 a) Ha).
Qed.

Lemma to_numeric_near (a : Q) :
  (0 <= a)%Q ->
  (a - (1 # 200000000) <= numeric_value (to_numeric a))%Q
  /\ (numeric_value (to_numeric a) <= a + (1 # 200000000))%Q
  /\ 0 <= to_numeric a
  /\ (0 < to_numeric a -> (1 # 200000000 <= a)%Q).
Proof.
  intros Ha. rewrite (to_numeric_nonneg a Ha). unfold numeric_value.
  change (inject_Z (10 ^ 8)) with (100000000 # 1)%Q.
  pose proof (Qfloor_le (a * (100000000 # 1) + (1 # 2))) as Hl.
  pose proof (Qlt_floor (a * (100000000 # 1) + (1 # 2))) as Hu.
  rewrite inject_Z_plus in Hu. change (inject_Z 1) with 1%Q in Hu.
  set (n := Qfloor (a * (100000000 # 1) + (1 # 2))) in *.
  assert (H0 : 0 <= n).
  { rewrite <- (Qfloor_Z 0). apply Qfloor_resp_le. change (inject_Z 0) with 0%Q. lra. }
  assert (H1 : 0 < n -> (1 <= inject_Z n)%Q).
  { intros Hn. change 1%Q with (inject_Z 1). rewrite <- Zle_Qle. lia. }
  clearbody n. generalize dependent (inject_Z n). intros q Hl Hu H1.
  assert (Hq : (q / (100000000 # 1) == q * (1 # 100000000))%Q) by field.
  rewrite Hq.
  split; [lra|]. split; [lra|]. split; [done|].
  intros Hn. specialize (H1 Hn). lra.
Qed.

Lemma insertTransaction_ok p h a t w r w' :
  insertTransaction p h a t w = (inr r, w') ->
  exists db,
    supabase w = Some db
    /\ store_answers w
    /\ falsy p = false /\ falsy h = false /\ (0 < a)%Q
    /\ r = {| Transaction.project_id := default "" p;
              Transaction.tx_hash := default "" h;
              Transaction.amount := to_numeric a;
              Transaction.type := t |}
    /\ 0 < to_numeric a < 10 ^ 18
    /\ is_Some (projects db !! default "" p)
    /\ supabase w'
       = Some {| users := users db; projects := projects db;
                 milestones := milestones db;
                 db_votes := db_votes db;
                 transactions := transactions db ++ [r] |}.
Proof.
  unfold insertTransaction, request, insert_transaction, numeric_overflow,
    store_answers. js_unfold.
  intros H. repeat (case_match; simplify_eq/=).
  all: eexists; split; [reflexivity|]; split; [congruence|].
  all: repeat match goal with
           | Hb : Qle_bool _ _ = false |- _ =>
               apply not_true_iff_false in Hb; rewrite Qle_bool_iff in Hb;
               apply Qnot_le_lt in Hb
           | Hb : negb _ = false |- _ => apply negb_false_iff in Hb
           | Hb : bool_decide _ = true |- _ => apply bool_decide_eq_true in Hb
           end.
  all: repeat split; try done; lia.
Qed.

(** X18.  [insertTransaction] records the amount as the column holds it,
    rounded to 8 decimals.  When it returns, one row is added to the
    transactions table, with the project, hash and type that were passed;
    its amount is positive and within 0.000000005 of the amount that was
    passed, which was at least 0.000000005: a smaller amount passes the
    test [amount <= 0] and is refused by the store. *)
Theorem insertTransaction_records_rounded_amount p h a t w r w' :
  insertTransaction p h a t w = (inr r, w') ->
  exists db db',
    supabase w = Some db
    /\ supabase w' = Some db'
    /\ transactions db' = transactions db ++ [r]
    /\ Transaction.project_id r = default "" p
    /\ Transaction.tx_hash r = default "" h
    /\ Transaction.type r = t
    /\ 0 < Transaction.amount r
    /\ (a - (1 # 200000000) <= numeric_value (Transaction.amount r))%Q
    /\ (numeric_value (Transaction.amount r) <= a + (1 # 200000000))%Q
    /\ (1 # 200000000 <= a)%Q.
Proof.
  intros H. apply insertTransaction_ok in H
    as (db & Hdb & _ & _ & _ & Ha & Hr & Hn & _ & Hdb').
  destruct (to_numeric_near a (Qlt_le_weak _ _ Ha)) as (Hl & Hu & _ & Hmin).
  eexists db, _. split; [done|]. split; [exact Hdb'|].
  subst r. simpl. repeat split; try done; try lia. apply Hmin. lia.
Qed.

(** A contribution of 0.0100000049 BCH is recorded as 0.01 BCH. *)
Lemma insertTransaction_records_rounded_amount_witness :
  exists r w',
    insertTransaction (Some "p1") (Some "h1") (100000049 # 10000000000) funding
      demo_world = (inr r, w')
    /\ Transaction.amount r = 1000000.
Proof.
  destruct (insertTransaction (Some "p1") (Some "h1") (100000049 # 10000000000)
              funding demo_world) as [[e|r] w'] eqn:H;
    [vm_compute in H; discriminate|].
  exists r, w'. split; [reflexivity|].
  destruct (insertTransaction_records_rounded_amount _ _ _ _ _ _ _ H)
    as (db & db' & _ & _ & _ & _ & _ & _ & Hpos & Hl & Hu & _).
  vm_compute in H. by injection H as <- _.
Defined.



Lemma to_numeric_plus (n : Z) (a : Q) :
  0 <= n -> (0 <= a)%Q ->
  to_numeric (numeric_value n + a) = n + to_numeric a.
Proof.
  intros Hn Ha.
  assert (Hv : (0 <= numeric_value n)%Q).
  { unfold numeric_value. change (inject_Z (10 ^ 8)) with (100000000 # 1)%Q.
    assert (H0 : (0 <= inject_Z n)%Q)
      by (change 0%Q with (inject_Z 0); by rewrite <- Zle_Qle).
    generalize dependent (inject_Z n). intros q Hq.
    assert (Hq' : (q / (100000000 # 1) == q * (1 # 100000000))%Q) by field.
    rewrite Hq'. lra. }
  rewrite !to_numeric_nonneg by (try done; lra).
  rewrite <- Qfloor_plus_Z. apply Qfloor_comp.
  unfold numeric_value. change (inject_Z (10 ^ 8)) with (100000000 # 1)%Q. field.
Qed.

Lemma to_numeric_positive (a : Q) : 0 < to_numeric a -> (0 < a)%Q.
Proof.
  intros H. destruct (Qlt_le_dec a 0) as [Hneg|Hpos].
  - exfalso. revert H. unfold to_numeric, Qltb, Qgtb.
    destruct (Qle_bool 0 a) eqn:E; [apply Qle_bool_iff in E; intros _; lra|].
    cbn [negb]. intros H.
    assert (H0 : 0 <= Qfloor (- a * inject_Z (10 ^ 8) + (1 # 2))); [|lia].
    rewrite <- (Qfloor_Z 0). apply Qfloor_resp_le.
    change (inject_Z 0) with 0%Q. change (inject_Z (10 ^ 8)) with (100000000 # 1)%Q.
    lra.
  - destruct (to_numeric_near a Hpos) as (_ & _ & _ & Hmin).
    specialize (Hmin H). lra.
Qed.

Lemma credited_nonneg p c : 0 <= credited p c.
Proof.
  destruct c as [| | |q a]; simpl; try done.
  destruct (falsy q); [done|]. simpl.
  destruct (Qle_bool a 0) eqn:E; [done|]. simpl.
  destruct (negb _); [done|].
  apply not_true_iff_false in E. rewrite Qle_bool_iff in E.
  apply Qnot_le_lt in E.
  by destruct (to_numeric_near a (Qlt_le_weak _ _ E)) as (_ & _ & H & _).
Qed.

Lemma credit_sum_nonneg p calls : 0 <= credit_sum p calls.
Proof.
  induction calls as [|c calls IH]; simpl; [done|].
  pose proof (credited_nonneg p c). lia.
Qed.

Lemma credit_sum_Permutation p l1 l2 :
  Permutation l1 l2 -> credit_sum p l1 = credit_sum p l2.
Proof. induction 1; simpl; lia. Qed.

Lemma credit_sum_app p l1 l2 :
  credit_sum p (l1 ++ l2) = credit_sum p l1 + credit_sum p l2.
Proof. induction l1 as [|c l1 IH]; simpl; lia. Qed.

Lemma insertTransaction_projects p h a t w res w' db :
  insertTransaction p h a t w = (res, w') ->
  supabase w = Some db ->
  exists db',
    supabase w' = Some db' /\ projects db' = projects db
    /\ (faults w = [] -> faults w' = []).
Proof.
  unfold insertTransaction, request, insert_transaction. js_unfold.
  destruct w as [ls wl nw sb fl]. simpl. intros H ->.
  repeat (case_match; simplify_eq/=);
    (eexists; split; [reflexivity|]); done.
Qed.

(** What one call does to the row of a project. *)
Lemma perform_funded c p w db r :
  supabase w = Some db ->
  faults w = [] ->
  projects db !! p = Some r ->
  0 <= Project.funded_amount r ->
  Project.funded_amount r + credited p c < 10 ^ 18 ->
  exists db' r',
    supabase (snd (perform c w)) = Some db'
    /\ faults (snd (perform c w)) = []
    /\ projects db' !! p = Some r'
    /\ Project.funded_amount r' = Project.funded_amount r + credited p c
    /\ Project.funding_target r' = Project.funding_target r.
Proof.
  intros Hdb Hf Hr H0 Hmax.
  destruct c as [m v b vp|m s|q h a t|q a]; unfold perform.
  - unfold bind. destruct (voteOnMilestone m v b vp w) as [res w'] eqn:H.
    destruct (voteOnMilestone_votes _ _ _ _ _ _ _ _ H Hdb)
      as (db' & Hdb' & _ & Hp & _ & _).
    pose proof (voteOnMilestone_faults _ _ _ _ _ _ _ H Hf) as Hf'.
    exists db', r. rewrite Hp. simpl. rewrite Z.add_0_r. by destruct res.
  - unfold bind. destruct (updateMilestoneStatus m s w) as [res w'] eqn:H.
    destruct (updateMilestoneStatus_db _ _ _ _ _ _ H Hdb)
      as (db' & Hdb' & _ & Hp & _ & Hf').
    exists db', r. rewrite Hp. simpl. rewrite Z.add_0_r.
    destruct res; simpl; auto.
  - unfold bind. destruct (insertTransaction q h a t w) as [res w'] eqn:H.
    destruct (insertTransaction_projects _ _ _ _ _ _ _ _ H Hdb)
      as (db' & Hdb' & Hp & Hf').
    exists db', r. rewrite Hp. simpl. rewrite Z.add_0_r.
    destruct res; simpl; auto.
  - revert Hmax. simpl.
    unfold updateFundedAmount, request, increment_funded_amount. js_unfold.
    destruct (falsy q); simpl;
      [intros _; exists db, r; by rewrite Z.add_0_r|].
    destruct (Qle_bool a 0) eqn:Ea; simpl;
      [intros _; exists db, r; by rewrite Z.add_0_r|].
    apply not_true_iff_false in Ea. rewrite Qle_bool_iff in Ea.
    apply Qnot_le_lt, Qlt_le_weak in Ea.
    rewrite Hdb, Hf. simpl.
    destruct (decide (default "" q = p)) as [->|Hne].
    + rewrite bool_decide_eq_true_2 by done. simpl. intros Hmax.
      rewrite Hr. rewrite (to_numeric_plus _ _ H0 Ea).
      pose proof (to_numeric_near a Ea) as (_ & _ & Ha & _).
      unfold numeric_overflow.
      rewrite (proj2 (Z.leb_gt _ _)) by lia.
      rewrite (proj2 (Z.ltb_ge _ _)) by lia.
      simpl. eexists _, _. split; [reflexivity|]. split; [done|].
      simpl. by rewrite lookup_insert_eq.
    + rewrite bool_decide_eq_false_2 by done. simpl. intros _.
      rewrite Z.add_0_r.
      destruct (projects db !! default "" q) as [rq|] eqn:Hq; simpl;
        [|by exists db, r].
      destruct (numeric_overflow _); simpl; [by exists db, r|].
      destruct (_ <? 0); simpl; [by exists db, r|].
      eexists _, r. split; [reflexivity|]. split; [done|].
      simpl. by rewrite lookup_insert_ne.
Qed.

Lemma run_funded calls p w db r :
  supabase w = Some db ->
  faults w = [] ->
  projects db !! p = Some r ->
  0 <= Project.funded_amount r ->
  Project.funded_amount r + credit_sum p calls < 10 ^ 18 ->
  exists db' r',
    supabase (run calls w) = Some db'
    /\ projects db' !! p = Some r'
    /\ Project.funded_amount r' = Project.funded_amount r + credit_sum p calls
    /\ Project.funding_target r' = Project.funding_target r.
Proof.
  revert w db r. induction calls as [|c calls IH];
    intros w db r Hdb Hf Hr H0 Hmax; simpl in *.
  - exists db, r. by rewrite Z.add_0_r.
  - pose proof (credited_nonneg p c) as Hc.
    pose proof (credit_sum_nonneg p calls) as Hs.
    destruct (perform_funded c p w db r Hdb Hf Hr H0)
      as (db1 & r1 & Hdb1 & Hf1 & Hr1 & Ha1 & Ht1); [lia|].
    destruct (IH _ _ _ Hdb1 Hf1 Hr1) as (db' & r' & Hdb' & Hr' & Ha' & Ht');
      [lia|lia|].
    exists db', r'. split; [done|]. split; [done|]. split; [lia|congruence].
Qed.

(** X20.  The funded amount of a project after any calls of the data layer
    is what it was plus the amounts of the calls of [updateFundedAmount]
    for this project, each rounded to 8 decimals on its own, as long as
    the column can hold the sum; no other call changes it, the funding
    target stays, and the order of the calls does not matter. *)
Theorem funded_amount_is_sum_of_credits calls p w db r :
  supabase w = Some db ->
  faults w = [] ->
  projects db !! p = Some r ->
  0 <= Project.funded_amount r ->
  Project.funded_amount r + credit_sum p calls < 10 ^ 18 ->
  funded_of (run calls w) p = Some (Project.funded_amount r + credit_sum p calls)
  /\ forall calls',
       Permutation calls calls' ->
       funded_of (run calls' w) p = funded_of (run calls w) p.
Proof.
  intros Hdb Hf Hr H0 Hmax.
  assert (Hrun : forall l,
            credit_sum p l = credit_sum p calls ->
            funded_of (run l w) p
            = Some (Project.funded_amount r + credit_sum p calls)).
  { intros l Hl.
    destruct (run_funded l p w db r Hdb Hf Hr H0) as (db' & r' & Hdb' & Hr' & Ha' & _);
      [lia|].
    unfold funded_of. rewrite Hdb', Hr'. simpl. by rewrite Ha', Hl. }
  split; [by apply Hrun|].
  intros calls' Hperm. rewrite (Hrun calls) by done.
  apply Hrun. symmetry. by apply credit_sum_Permutation.
Qed.

(** The calls of [sequential] and of [interleaved] on [demo_world]: p1 has
    0.02 BCH after either. *)
Lemma funded_amount_is_sum_of_credits_witness :
  funded_of (run sequential demo_world) "p1" = Some 2000000
  /\ funded_of (run interleaved demo_world) "p1" = Some 2000000.
Proof.
  destruct (funded_amount_is_sum_of_credits sequential "p1" demo_world demo_db
              {| Project.funding_target := 100000000; Project.funded_amount := 0 |})
    as [Hs Hp]; [reflexivity|reflexivity|reflexivity|simpl; lia|vm_compute; reflexivity|].
  split; [exact Hs|].
  rewrite (Hp interleaved); [exact Hs|].
  unfold sequential, interleaved.
  repeat first [apply Permutation_refl | apply perm_skip
               | (eapply perm_trans; [apply perm_swap|apply perm_skip])].
Defined.

(** One contribution adds as much to the funding total as to the funded
    amount. *)
Lemma recordFunding_balanced p known c :
  p ∈ known ->
  recordable c ->
  funding_sum p (flat_map (recorded known) (recordFunding c))
  = credit_sum p (recordFunding c).
Proof.
  intros Hp [Hh [Hlo Hhi]]. destruct c as [q h a]. simpl in *.
  pose proof (to_numeric_positive a Hlo) as Ha.
  assert (Ea : Qle_bool a 0 = false).
  { apply not_true_iff_false. rewrite Qle_bool_iff. by apply Qlt_not_le. }
  rewrite Hh, Ea, app_nil_r. unfold numeric_overflow.
  rewrite (proj2 (Z.leb_gt _ _)) by lia.
  rewrite (proj2 (Z.leb_gt _ _)) by lia.
  destruct (falsy q) eqn:Eq; simpl; [done|].
  destruct (decide (default "" q = p)) as [->|Hne].
  - rewrite !bool_decide_eq_true_2 by done. simpl.
    unfold is_funding_of. simpl. by rewrite !bool_decide_eq_true_2.
  - rewrite (bool_decide_eq_false_2 (default "" q = p)) by done. simpl.
    destruct (bool_decide (default "" q ∈ known)); simpl; [|done].
    unfold is_funding_of. simpl.
    by rewrite (bool_decide_eq_false_2 (default "" q = p)).
Qed.

Lemma flat_map_recordFunding_balanced p known cs :
  p ∈ known ->
  Forall recordable cs ->
  funding_sum p (flat_map (recorded known) (flat_map recordFunding cs))
  = credit_sum p (flat_map recordFunding cs).
Proof.
  intros Hp. induction 1 as [|c cs Hc Hcs IH]; [done|].
  change (flat_map recordFunding (c :: cs))
    with (recordFunding c ++ flat_map recordFunding cs).
  rewrite flat_map_app, funding_sum_app, credit_sum_app, IH.
  by rewrite (recordFunding_balanced p known c Hp Hc).
Qed.

(** X21.  [recordFunding] keeps the two books of a project in step.  Its
    [Promise.all] starts [insertTransaction] and [updateFundedAmount]
    together, so the requests of several contributions reach the store in
    any order; when each contribution has a transaction hash and an amount
    that the column holds as a positive number, the funded amount of a
    project has grown, after all of them, by as much as the sum of its
    funding transactions. *)
Theorem recordFunding_keeps_books_in_step cs schedule p w db r :
  supabase w = Some db ->
  faults w = [] ->
  projects db !! p = Some r ->
  0 <= Project.funded_amount r ->
  Forall recordable cs ->
  Permutation schedule (flat_map recordFunding cs) ->
  Project.funded_amount r + credit_sum p schedule < 10 ^ 18 ->
  exists db' r',
    supabase (run schedule w) = Some db'
    /\ projects db' !! p = Some r'
    /\ Project.funded_amount r' - Project.funded_amount r
       = funding_sum p (transactions db') - funding_sum p (transactions db).
Proof.
  intros Hdb Hf Hr H0 Hcs Hperm Hmax.
  destruct (run_funded schedule p w db r Hdb Hf Hr H0 Hmax)
    as (db' & r' & Hdb' & Hr' & Ha' & _).
  destruct (run_recorded schedule w db Hdb Hf) as (db'' & Hdb'' & _ & Ht).
  rewrite Hdb' in Hdb''. injection Hdb'' as <-.
  exists db', r'. split; [done|]. split; [done|].
  rewrite Ha', Ht, funding_sum_app.
  rewrite (credit_sum_Permutation _ _ _ Hperm).
  rewrite (funding_sum_Permutation p _ _
             (Permutation_flat_map (recorded (dom (projects db))) Hperm)).
  rewrite flat_map_recordFunding_balanced; [lia| |done].
  by apply elem_of_dom.
Qed.

(** Three contributions whose requests overlap: p1 has 0.03 BCH in both
    books. *)
Lemma recordFunding_keeps_books_in_step_witness :
  exists db' r',
    supabase (run overlapping demo_world) = Some db'
    /\ projects db' !! "p1" = Some r'
    /\ Project.funded_amount r' = 3000000
    /\ funding_sum "p1" (transactions db') = 3000000.
Proof.
  assert (Hcs : Forall recordable three_contributions).
  { repeat constructor; vm_compute; congruence. }
  assert (Hperm : Permutation overlapping (flat_map recordFunding three_contributions)).
  { unfold overlapping, three_contributions. simpl.
    apply perm_skip.
    apply (Permutation_cons_app [_; _] [_; _]).
    apply (Permutation_cons_app [_; _; _] []).
    apply (Permutation_cons_app [_] [_]).
    apply perm_swap. }
  destruct (recordFunding_keeps_books_in_step three_contributions overlapping "p1"
              demo_world demo_db
              {| Project.funding_target := 100000000; Project.funded_amount := 0 |}
              eq_refl eq_refl eq_refl)
    as (db' & r' & Hdb' & Hr' & Hbooks);
    [simpl; lia|exact Hcs|exact Hperm|vm_compute; reflexivity|].
  exists db', r'. split; [done|]. split; [done|].
  assert (Ha : Project.funded_amount r' = 3000000).
  { vm_compute in Hdb'. injection Hdb' as <-. vm_compute in Hr'.
    by injection Hr' as <-. }
  split; [done|]. rewrite Ha in Hbooks. simpl in Hbooks. lia.
Defined.

(** X22.  A contribution without a transaction hash puts the two books
    out of step: [insertTransaction] throws before any request, the other
    call of the [Promise.all] of [recordFunding] is made all the same, and
    the funded amount grows while no transaction is recorded. *)
Theorem recordFunding_without_hash_credits c p w db r :
  supabase w = Some db ->
  faults w = [] ->
  Contribution.projectId c = Some p ->
  p <> "" ->
  projects db !! p = Some r ->
  0 <= Project.funded_amount r ->
  falsy (Contribution.txHash c) = true ->
  0 < to_numeric (Contribution.amount c) ->
  Project.funded_amount r + to_numeric (Contribution.amount c) < 10 ^ 18 ->
  exists db' r',
    supabase (run (recordFunding c) w) = Some db'
    /\ transactions db' = transactions db
    /\ projects db' !! p = Some r'
    /\ Project.funded_amount r'
       = Project.funded_amount r + to_numeric (Contribution.amount c).
Proof.
  intros Hdb Hf Hq Hp Hr H0 Hh Hlo Hmax.
  pose proof (to_numeric_positive _ Hlo) as Ha.
  assert (Ea : Qle_bool (Contribution.amount c) 0 = false).
  { apply not_true_iff_false. rewrite Qle_bool_iff. by apply Qlt_not_le. }
  assert (Hsum : credit_sum p (recordFunding c) = to_numeric (Contribution.amount c)).
  { unfold recordFunding. simpl. rewrite Hq, Ea. simpl.
    rewrite (bool_decide_eq_false_2 (p = "")) by done.
    rewrite (bool_decide_eq_true_2 (p = p)) by done. simpl. lia. }
  destruct (run_funded (recordFunding c) p w db r Hdb Hf Hr H0)
    as (db' & r' & Hdb' & Hr' & Ha' & _); [lia|].
  destruct (run_recorded (recordFunding c) w db Hdb Hf) as (db'' & Hdb'' & _ & Ht).
  rewrite Hdb' in Hdb''. injection Hdb'' as <-.
  exists db', r'. split; [done|]. split; [|split; [done|lia]].
  rewrite Ht. unfold recordFunding. simpl. rewrite Hh.
  rewrite orb_true_r. simpl. by rewrite app_nil_r.
Qed.

(** 0.01 BCH without a hash: p1 is credited, no transaction is stored. *)
Lemma recordFunding_without_hash_credits_witness :
  exists db' r',
    supabase (run (recordFunding without_hash) demo_world) = Some db'
    /\ transactions db' = []
    /\ projects db' !! "p1" = Some r'
    /\ Project.funded_amount r' = 1000000.
Proof.
  destruct (recordFunding_without_hash_credits without_hash "p1" demo_world demo_db
              {| Project.funding_target := 100000000; Project.funded_amount := 0 |}
              eq_refl eq_refl eq_refl)
    as (db' & r' & Hdb' & Ht & Hr' & Ha);
    [done|reflexivity|simpl; lia|reflexivity|vm_compute; reflexivity
    |vm_compute; reflexivity|].
  by exists db', r'.
Defined.

(** ** The pages *)

(** X23.  The status that [handleVote] of the projects page gives to a
    milestone follows the rule of the contract service.  The update leaves
    the funded amount, the number and the ids of the milestones and every
    milestone with another id as they were; in a milestone with the id it
    adds one vote to the chosen side only and, for a tally that was not
    negative, sets the status to Approved exactly when [isApproved] holds
    of the new tally, and to Pending otherwise. *)
Theorem page_vote_follows_contract_rule milestoneId voteType prev i m :
  PageProject.milestones prev !! i = Some m ->
  0 <= Tally.yes (PageMilestone.votes m) ->
  0 <= Tally.no (PageMilestone.votes m) ->
  PageProject.fundedAmount (handleVote milestoneId voteType prev)
  = PageProject.fundedAmount prev
  /\ length (PageProject.milestones (handleVote milestoneId voteType prev))
     = length (PageProject.milestones prev)
  /\ exists m',
       PageProject.milestones (handleVote milestoneId voteType prev) !! i = Some m'
       /\ PageMilestone.id m' = PageMilestone.id m
       /\ (PageMilestone.id m <> milestoneId -> m' = m)
       /\ (PageMilestone.id m = milestoneId ->
           tally_get (PageMilestone.votes m') voteType
           = tally_get (PageMilestone.votes m) voteType + 1
           /\ Tally.yes (PageMilestone.votes m') + Tally.no (PageMilestone.votes m')
              = Tally.yes (PageMilestone.votes m) + Tally.no (PageMilestone.votes m) + 1
           /\ PageMilestone.status m'
              = if isApproved (Tally.yes (PageMilestone.votes m'))
                     (Tally.no (PageMilestone.votes m'))
                then "Approved" else "Pending").
Proof.
  intros Hm Hy Hn. unfold handleVote. simpl.
  split; [done|]. split; [by rewrite length_map|].
  rewrite list_lookup_fmap, Hm. simpl.
  eexists. split; [reflexivity|].
  destruct (PageMilestone.id m =? milestoneId) eqn:E; simpl.
  - apply Z.eqb_eq in E. split; [done|]. split; [done|]. intros _.
    destruct m as [mid [y n] st]. simpl in *.
    destruct voteType; simpl; (split; [done|]); (split; [lia|]).
    + destruct (n <? y + 1) eqn:E1.
      * apply Z.ltb_lt in E1.
        assert (Ha : isApproved (y + 1) n = true) by (apply isApproved_iff; lia).
        by rewrite Ha.
      * apply Z.ltb_ge in E1.
        destruct (isApproved (y + 1) n) eqn:Ha; [|done].
        apply isApproved_iff in Ha. lia.
    + destruct (n + 1 <? y) eqn:E1.
      * apply Z.ltb_lt in E1.
        assert (Ha : isApproved y (n + 1) = true) by (apply isApproved_iff; lia).
        by rewrite Ha.
      * apply Z.ltb_ge in E1.
        destruct (isApproved y (n + 1)) eqn:Ha; [|done].
        apply isApproved_iff in Ha. lia.
  - apply Z.eqb_neq in E. split; [done|]. split; [done|]. done.
Qed.

(** A NO on the approved milestone 0 of [demo_page] makes it pending. *)
Lemma page_vote_follows_contract_rule_witness :
  exists m',
    PageProject.milestones (handleVote 0 no demo_page) !! 0%nat = Some m'
    /\ PageMilestone.status m' = "Pending".
Proof.
  destruct (page_vote_follows_contract_rule 0 no demo_page 0%nat
              {| PageMilestone.id := 0;
                 PageMilestone.votes := {| Tally.yes := 1; Tally.no := 0 |};
                 PageMilestone.status := "Approved" |} eq_refl)
    as (_ & _ & m' & Hm' & _ & _ & Hvote); [simpl; lia|simpl; lia|].
  exists m'. split; [done|].
  destruct (Hvote eq_refl) as (_ & _ & Hst).
  rewrite Hst. vm_compute in Hm'. by injection Hm' as <-.
Defined.

Lemma ratio_le_1 (c t : Q) :
  (0 < t)%Q -> (c / t * 100 <= 100 <-> c <= t)%Q.
Proof.
  intros Ht.
  assert (Hc : (c == c / t * t)%Q) by (field; lra).
  split; intros H.
  - assert (H1 : (c / t <= 1)%Q) by lra.
    apply (Qmult_le_r _ _ t Ht) in H1. rewrite <- Hc in H1. lra.
  - assert (H1 : (c / t <= 1)%Q); [|lra].
    apply (Qmult_le_r _ _ t Ht). rewrite <- Hc. lra.
Qed.

Lemma ratio_ge_1 (c t : Q) :
  (0 < t)%Q -> (100 <= c / t * 100 <-> t <= c)%Q.
Proof.
  intros Ht.
  assert (Hc : (c == c / t * t)%Q) by (field; lra).
  split; intros H.
  - assert (H1 : (1 <= c / t)%Q) by lra.
    apply (Qmult_le_r _ _ t Ht) in H1. rewrite <- Hc in H1. lra.
  - assert (H1 : (1 <= c / t)%Q); [|lra].
    apply (Qmult_le_r _ _ t Ht). rewrite <- Hc. lra.
Qed.

(** X24.  The percentage of the progress bar is never above 100 and, for
    an amount that is not negative, never below 0; for a positive target
    it is 100 exactly from the target on and the ratio in percent up to
    it, and for a target that is not positive it is 0. *)
Theorem percentage_is_capped current target :
  (percentage current target <= 100)%Q
  /\ ((0 <= current)%Q -> (0 <= percentage current target)%Q)
  /\ ((0 < target)%Q -> (target <= current)%Q ->
      (percentage current target == 100)%Q)
  /\ ((0 < target)%Q -> (current <= target)%Q ->
      (percentage current target == current / target * 100)%Q)
  /\ ((target <= 0)%Q -> (percentage current target == 0)%Q).
Proof.
  unfold percentage, Math_min.
  destruct (Qgtb target 0) eqn:Et.
  - apply Qgtb_lt in Et.
    pose proof (ratio_le_1 current target Et) as Hle.
    pose proof (ratio_ge_1 current target Et) as Hge.
    destruct (Qle_bool (current / target * 100) 100) eqn:E.
    + apply Qle_bool_iff in E.
      split; [done|]. split; [|split; [|split]].
      * intros Hc. apply Qmult_le_0_compat; [|lra].
        apply Qle_shift_div_l; [done|lra].
      * intros _ Hc. apply Hge in Hc. lra.
      * reflexivity.
      * intros Hneg. lra.
    + apply not_true_iff_false in E. rewrite Qle_bool_iff in E.
      split; [lra|]. split; [intros _; lra|]. split; [reflexivity|].
      split; [|intros Hneg; lra].
      intros _ Hc. apply Hle in Hc. by destruct E.
  - apply Qgtb_le in Et.
    split; [lra|]. split; [intros _; lra|].
    split; [intros Hpos; lra|]. split; [intros Hpos; lra|reflexivity].
Qed.

(** 0.03 of 0.02 BCH shows 100, and 0.005 of 0.02 BCH shows 25. *)
Lemma percentage_is_capped_witness :
  (percentage (3 # 100) (2 # 100) == 100)%Q
  /\ (percentage (5 # 1000) (2 # 100) == 25)%Q.
Proof.
  destruct (percentage_is_capped (3 # 100) (2 # 100)) as (_ & _ & H100 & _).
  destruct (percentage_is_capped (5 # 1000) (2 # 100)) as (_ & _ & _ & Hr & _).
  split.
  - apply H100; reflexivity || (unfold Qle; simpl; lia).
  - rewrite Hr; [reflexivity|reflexivity|unfold Qle; simpl; lia].
Defined.
